(** * CHIP-8 interpreter core (lib/index.js): shallow embedding and properties

    The emulator object of [lib/index.js] is embedded as a record, its
    methods ([reset], [load], [runCycle], [setPixel]) as functions on that
    record.  The JavaScript values the program manipulates are integers,
    [NaN] and [undefined]; they are kept apart because the source performs
    no bounds checks and therefore does produce the last two. *)

From Stdlib Require Import ZArith Lia Strings.Byte.
From Stdlib Require Import Floats.SpecFloat.
From stdpp Require Import base option list gmap.

Local Open Scope Z_scope.

(** ** JavaScript values *)

(** The values stored in the emulator's fields.  A [Num] is a JavaScript
    number holding an integer; the machine only ever adds, subtracts,
    shifts and masks such numbers, so they stay integers (exactly
    represented below 2^53, a bound no field approaches).  Fractions appear
    in one local variable of the BCD handler and are modelled there as
    binary64 floats. *)
Inductive value : Type :=
| Undefined
| NaN
| Num (z : Z).

#[global] Instance value_eq_dec : EqDecision value.
Proof. solve_decision. Defined.

Definition ToNumber (a : value) : value :=
  match a with
  | Undefined => NaN
  | _ => a
  end.

(** [a + b], [a - b] and [a * b] on non-string operands. *)
Definition js_add (a b : value) : value :=
  match ToNumber a, ToNumber b with
  | Num p, Num q => Num (p + q)
  | _, _ => NaN
  end.

Definition js_sub (a b : value) : value :=
  match ToNumber a, ToNumber b with
  | Num p, Num q => Num (p - q)
  | _, _ => NaN
  end.

Definition js_mul (a b : value) : value :=
  match ToNumber a, ToNumber b with
  | Num p, Num q => Num (p * q)
  | _, _ => NaN
  end.

(** Signed 32-bit wrap-around, as performed by every bitwise operator. *)
Definition wrap32 (z : Z) : Z := (z + 2 ^ 31) mod 2 ^ 32 - 2 ^ 31.

Definition ToInt32 (a : value) : Z :=
  match a with
  | Num z => wrap32 z
  | _ => 0
  end.

Definition js_or (a b : value) : Z := Z.lor (ToInt32 a) (ToInt32 b).
Definition js_and (a b : value) : Z := Z.land (ToInt32 a) (ToInt32 b).
Definition js_xor (a b : value) : Z := Z.lxor (ToInt32 a) (ToInt32 b).
Definition js_shl (a : value) (k : Z) : Z := wrap32 (Z.shiftl (ToInt32 a) k).
Definition js_shr (a : value) (k : Z) : Z := Z.shiftr (ToInt32 a) k.

(** [a > b] and [a < b]: false as soon as one side is not a number. *)
Definition js_gt (a b : value) : bool :=
  match ToNumber a, ToNumber b with
  | Num p, Num q => q <? p
  | _, _ => false
  end.

Definition js_lt (a b : value) : bool :=
  match ToNumber a, ToNumber b with
  | Num p, Num q => p <? q
  | _, _ => false
  end.

(** [a === b]. *)
Definition strict_eq (a b : value) : bool :=
  match a, b with
  | Undefined, Undefined => true
  | Num p, Num q => p =? q
  | _, _ => false
  end.

(** [!a]. *)
Definition js_not (a : value) : bool :=
  match a with
  | Num z => z =? 0
  | _ => true
  end.

(** Unary [+] applied to a boolean. *)
Definition of_bool (b : bool) : value := Num (if b then 1 else 0).

(** ** Arrays *)

(** A property name produced by indexing with a value: an integer index,
    ["NaN"] or ["undefined"]. *)
Inductive key : Type :=
| Idx (z : Z)
| KNaN
| KUndefined.

#[global] Instance key_eq_dec : EqDecision key.
Proof. solve_decision. Defined.

Definition key_code (k : key) : Z + bool :=
  match k with
  | Idx z => inl z
  | KNaN => inr false
  | KUndefined => inr true
  end.

Definition code_key (c : Z + bool) : key :=
  match c with
  | inl z => Idx z
  | inr false => KNaN
  | inr true => KUndefined
  end.

#[global] Instance key_countable : Countable key.
Proof. refine (inj_countable' key_code code_key _). by intros []. Defined.

Definition key_of (a : value) : key :=
  match a with
  | Num z => Idx z
  | NaN => KNaN
  | Undefined => KUndefined
  end.

(** A plain [Array]: the properties that have been written.  Reading a
    property that was never written gives [undefined]; writing one creates
    it, whatever the index (a plain array grows, and accepts negative and
    non-numeric property names). *)
Abbreviation jsarray := (gmap key value).

Definition arr_get (a : jsarray) (k : key) : value := default Undefined (a !! k).
Definition arr_set (a : jsarray) (k : key) (x : value) : jsarray := <[k := x]> a.

(** [a.length] of an array constructed with [new Array(base)]: the
    constructed length, or one past the largest index written. *)
Definition arr_length (base : Z) (a : jsarray) : Z :=
  map_fold (fun k _ acc => match k with Idx z => Z.max acc (z + 1) | _ => acc end) base a.

(** [for (k = start; k < start + count; k++) body]. *)
Fixpoint for_upto {A : Type} (count : nat) (k : Z) (body : Z -> A -> A) (a : A) : A :=
  match count with
  | O => a
  | S c => for_upto c (k + 1) body (body k a)
  end.

(** ** Memory: a [Uint8Array] *)

Definition byte_of_Z (z : Z) : byte :=
  default x00 (Byte.of_N (Z.to_N (z mod 256))).

Definition Z_of_byte (b : byte) : Z := Z.of_N (Byte.to_N b).

(** Conversion performed by a store into a [Uint8Array]. *)
Definition ToUint8 (a : value) : byte :=
  match a with
  | Num z => byte_of_Z z
  | _ => x00
  end.

(** [m[a]] on a typed array: a byte inside the array, [undefined] at every
    other index and at every non-index. *)
Definition mem_get (m : list byte) (a : value) : value :=
  match a with
  | Num z => if 0 <=? z then from_option (fun b => Num (Z_of_byte b)) Undefined (m !! Z.to_nat z)
             else Undefined
  | _ => Undefined
  end.

(** [m[a] = x] on a typed array: stores inside the array, does nothing
    elsewhere (a typed array never grows). *)
Definition mem_set (m : list byte) (a : value) (x : value) : list byte :=
  match a with
  | Num z => if 0 <=? z then <[Z.to_nat z := ToUint8 x]> m else m
  | _ => m
  end.

(** ** Fractional numbers: binary64 *)

(** The BCD handler divides by ten, and [Math.random] returns a fraction;
    both are IEEE 754 binary64 values, taken from the specification of the
    format in the standard library ([spec_float] with 53 bits of precision). *)
Definition prec : Z := 53.
Definition emax : Z := 1024.

Definition float_of_Z (z : Z) : spec_float := binary_normalize prec emax z 0 false.

Definition to_float (a : value) : spec_float :=
  match a with
  | Num z => float_of_Z z
  | _ => S754_nan
  end.

(** [a / b] on numbers. *)
Definition float_div (a b : spec_float) : spec_float := SFdiv prec emax a b.

(** [a * b] on numbers. *)
Definition float_mul (a b : spec_float) : spec_float := SFmul prec emax a b.

(** [a % b] on numbers: the exact remainder of the truncating division,
    with the sign of the dividend. *)
Definition float_rem (a b : spec_float) : spec_float :=
  match a, b with
  | S754_nan, _ | _, S754_nan => S754_nan
  | S754_infinity _, _ => S754_nan
  | _, S754_zero _ => S754_nan
  | S754_zero _, _ => a
  | S754_finite _ _ _, S754_infinity _ => a
  | S754_finite sa ma ea, S754_finite _ mb eb =>
      let e := Z.min ea eb in
      let r := Z.rem (Z.shiftl (Zpos ma) (ea - e)) (Z.shiftl (Zpos mb) (eb - e)) in
      binary_normalize prec emax (if sa then - r else r) e sa
  end.

(** Integer part of the magnitude [m * 2^e]. *)
Definition trunc_mag (m : positive) (e : Z) : Z := Z.shiftl (Zpos m) e.

(** Whether [ToString] writes the magnitude [m * 2^e] in plain decimal
    notation: at least 1e-6 and below 1e21. *)
Definition plain_decimal (m : positive) (e : Z) : bool :=
  (1 <=? Z.shiftl (10 ^ 6 * Zpos m) e) && (Z.shiftl (Zpos m) e <? 10 ^ 21).

(** What the program's surroundings supply to one cycle. *)
Record host : Type := {
  (** the value returned by [Math.random()] *)
  random : spec_float;
  (** what [renderer.clear()] does to the display array, which the renderer
      is handed by reference in [start] *)
  renderer_clear : jsarray -> jsarray;
  (** the integer [parseInt] reads from a number that [ToString] writes in
      exponent notation (magnitude below 1e-6 or at least 1e21) *)
  parseInt_exponent : spec_float -> Z
}.

(** [parseInt(f)] on a number: the number is converted to a string, whose
    leading integer is read. *)
Definition parseInt (h : host) (f : spec_float) : value :=
  match f with
  | S754_nan | S754_infinity _ => NaN
  | S754_zero _ => Num 0
  | S754_finite sgn m e =>
      if plain_decimal m e
      then Num (if sgn then - trunc_mag m e else trunc_mag m e)
      else Num (parseInt_exponent h f)
  end.

(** [Math.floor(f)] as the 32-bit integer that a following bitwise
    operator makes of it ([NaN] and the infinities become 0). *)
Definition floor_int32 (f : spec_float) : Z :=
  match f with
  | S754_finite sgn m e => wrap32 (Z.shiftl (if sgn then Zneg m else Zpos m) e)
  | _ => 0
  end.

(** ** The emulator object *)

(** The fields of a [Chip8] instance.  [sp] is only ever assigned 0 and
    changed by [++] and [--], so it is an integer throughout.
    [requestRender] is absent (falsy) until the first draw. *)
Record chip8 : Type := {
  memory : list byte;
  stack : jsarray;
  v : jsarray;
  i : value;
  dt : value;
  st : value;
  pc : value;
  sp : Z;
  running : bool;
  display : jsarray;
  requestRender : bool
}.

Definition displayWidth : Z := 64.
Definition displayHeight : Z := 32.

Definition set_memory (s : chip8) (m : list byte) : chip8 :=
  {| memory := m; stack := stack s; v := v s; i := i s; dt := dt s; st := st s;
     pc := pc s; sp := sp s; running := running s; display := display s;
     requestRender := requestRender s |}.

Definition set_stack (s : chip8) (a : jsarray) : chip8 :=
  {| memory := memory s; stack := a; v := v s; i := i s; dt := dt s; st := st s;
     pc := pc s; sp := sp s; running := running s; display := display s;
     requestRender := requestRender s |}.

Definition set_v (s : chip8) (a : jsarray) : chip8 :=
  {| memory := memory s; stack := stack s; v := a; i := i s; dt := dt s; st := st s;
     pc := pc s; sp := sp s; running := running s; display := display s;
     requestRender := requestRender s |}.

Definition set_i (s : chip8) (a : value) : chip8 :=
  {| memory := memory s; stack := stack s; v := v s; i := a; dt := dt s; st := st s;
     pc := pc s; sp := sp s; running := running s; display := display s;
     requestRender := requestRender s |}.

Definition set_dt (s : chip8) (a : value) : chip8 :=
  {| memory := memory s; stack := stack s; v := v s; i := i s; dt := a; st := st s;
     pc := pc s; sp := sp s; running := running s; display := display s;
     requestRender := requestRender s |}.

Definition set_st (s : chip8) (a : value) : chip8 :=
  {| memory := memory s; stack := stack s; v := v s; i := i s; dt := dt s; st := a;
     pc := pc s; sp := sp s; running := running s; display := display s;
     requestRender := requestRender s |}.

Definition set_pc (s : chip8) (a : value) : chip8 :=
  {| memory := memory s; stack := stack s; v := v s; i := i s; dt := dt s; st := st s;
     pc := a; sp := sp s; running := running s; display := display s;
     requestRender := requestRender s |}.

Definition set_sp (s : chip8) (z : Z) : chip8 :=
  {| memory := memory s; stack := stack s; v := v s; i := i s; dt := dt s; st := st s;
     pc := pc s; sp := z; running := running s; display := display s;
     requestRender := requestRender s |}.

Definition set_running (s : chip8) (b : bool) : chip8 :=
  {| memory := memory s; stack := stack s; v := v s; i := i s; dt := dt s; st := st s;
     pc := pc s; sp := sp s; running := b; display := display s;
     requestRender := requestRender s |}.

Definition set_display (s : chip8) (a : jsarray) : chip8 :=
  {| memory := memory s; stack := stack s; v := v s; i := i s; dt := dt s; st := st s;
     pc := pc s; sp := sp s; running := running s; display := a;
     requestRender := requestRender s |}.

Definition set_requestRender (s : chip8) (b : bool) : chip8 :=
  {| memory := memory s; stack := stack s; v := v s; i := i s; dt := dt s; st := st s;
     pc := pc s; sp := sp s; running := running s; display := display s;
     requestRender := b |}.

(** [this.v[k]] and [this.v[k] = a]. *)
Definition getV (s : chip8) (k : Z) : value := arr_get (v s) (Idx k).
Definition setV (s : chip8) (k : Z) (a : value) : chip8 := set_v s (arr_set (v s) (Idx k) a).

(** [this.memory[a]] and [this.memory[a] = x]. *)
Definition load_byte (s : chip8) (a : value) : value := mem_get (memory s) a.
Definition store_byte (s : chip8) (a : value) (x : value) : chip8 :=
  set_memory s (mem_set (memory s) a x).

(** ** reset *)

Definition hexDigits : list Z :=
  [ 0xF0; 0x90; 0x90; 0x90; 0xF0;
    0x20; 0x60; 0x20; 0x20; 0x70;
    0xF0; 0x10; 0xF0; 0x80; 0xF0;
    0xF0; 0x10; 0xF0; 0x10; 0xF0;
    0x90; 0x90; 0xF0; 0x10; 0xF0;
    0xF0; 0x80; 0xF0; 0x10; 0xF0;
    0xF0; 0x80; 0xF0; 0x90; 0xF0;
    0xF0; 0x10; 0x20; 0x40; 0x40;
    0xF0; 0x90; 0xF0; 0x90; 0xF0;
    0xF0; 0x90; 0xF0; 0x10; 0xF0;
    0xF0; 0x90; 0xF0; 0x90; 0x90;
    0xE0; 0x90; 0xE0; 0x90; 0xE0;
    0xF0; 0x80; 0x80; 0x80; 0xF0;
    0xE0; 0x90; 0x90; 0x90; 0xE0;
    0xF0; 0x80; 0xF0; 0x80; 0xF0;
    0xF0; 0x80; 0xF0; 0x80; 0x80 ].

(** [for (k = 0; k < a.length; k++) a[k] = 0] on a plain array. *)
Definition zero_array (base : Z) (a : jsarray) : jsarray :=
  for_upto (Z.to_nat (arr_length base a)) 0 (fun k acc => arr_set acc (Idx k) (Num 0)) a.

(** [for (k = 0; k < p.length; k++) m[start + k] = p[k]]. *)
Definition copy_bytes (start : Z) (p : list Z) (m : list byte) : list byte :=
  for_upto (length p) 0
    (fun k acc => mem_set acc (js_add (Num start) (Num k))
                    (from_option Num Undefined (p !! Z.to_nat k))) m.

Definition reset (s : chip8) : chip8 :=
  let m0 := for_upto (length (memory s)) 0 (fun k acc => mem_set acc (Num k) (Num 0)) (memory s) in
  let m1 := copy_bytes 0 hexDigits m0 in
  {| memory := m1;
     stack := stack s;
     v := zero_array 16 (v s);
     i := Num 0;
     dt := Num 0;
     st := Num 0;
     pc := Num 0x200;
     sp := 0;
     running := false;
     display := zero_array (displayWidth * displayHeight) (display s);
     requestRender := requestRender s |}.

(** The constructor: fresh arrays, then [reset()].  The constructor's
    [null] placeholders for [i], [dt], [st], [pc] and [sp] are overwritten
    by [reset] before anything reads them. *)
Definition Chip8 : chip8 :=
  reset {| memory := replicate 0x1000%nat x00;
           stack := ∅; v := ∅;
           i := Undefined; dt := Undefined; st := Undefined; pc := Undefined; sp := 0;
           running := false; display := ∅; requestRender := false |}.

(** ** load *)

Inductive error : Type :=
| UnknownOpcode (opcode : Z)
| TypeError.

(** How a call of a method ends: normally, or by a thrown exception, with
    the state reached at that point. *)
Inductive completion : Type :=
| Normal (s : chip8)
| Throw (e : error) (s : chip8).

(** How [load] ends once the loader has called back with [(err, p)]: the
    callback [cb] is invoked with [err], or an exception escapes first. *)
Inductive load_result (E : Type) : Type :=
| Callback (err : option E) (s : chip8)
| LoadThrow (e : error) (s : chip8).
Arguments Callback {E} err s.
Arguments LoadThrow {E} e s.

(** The callback handed to the loader receives [(err, p)]; [p] is the
    program image, or [undefined] ([None]).  Reading [p.length] of
    [undefined] throws a [TypeError]. *)
Definition load {E : Type} (err : option E) (p : option (list Z)) (s : chip8) : load_result E :=
  match p with
  | None => LoadThrow TypeError s
  | Some bytes => Callback err (set_memory s (copy_bytes 0x200 bytes (memory s)))
  end.

(** ** setPixel *)

(** The wrap applied to one coordinate [c] against dimension [d]. *)
Definition wrap_coord (c : value) (d : Z) : value :=
  if js_gt c (Num d) then js_sub c (Num d)
  else if js_lt c (Num 0) then js_add c (Num d)
  else c.

(** [location] as computed by [setPixel]. *)
Definition pixel_location (x y : value) : value :=
  js_add (wrap_coord x displayWidth) (js_mul (wrap_coord y displayHeight) (Num displayWidth)).

(** [setPixel(x, y)]: the value returned and the display afterwards. *)
Definition setPixel (x y : value) (d : jsarray) : bool * jsarray :=
  let location := key_of (pixel_location x y) in
  let d' := arr_set d location (Num (js_xor (arr_get d location) (Num 1))) in
  (js_not (arr_get d' location), d').

(** ** runCycle *)

(** The opcode fetched at [pc]. *)
Definition fetch (s : chip8) : Z :=
  js_or (Num (js_shl (load_byte s (pc s)) 8)) (load_byte s (js_add (pc s) (Num 1))).

Definition op_CLS (h : host) (s : chip8) : chip8 :=
  set_display s (renderer_clear h (display s)).

Definition op_RET (s : chip8) : chip8 :=
  let s1 := set_sp s (sp s - 1) in
  set_pc s1 (arr_get (stack s1) (Idx (sp s1))).

Definition op_CALL (addr : Z) (s : chip8) : chip8 :=
  let s1 := set_stack s (arr_set (stack s) (Idx (sp s)) (pc s)) in
  let s2 := set_sp s1 (sp s1 + 1) in
  set_pc s2 (Num addr).

Definition skip_if (b : bool) (s : chip8) : chip8 :=
  if b then set_pc s (js_add (pc s) (Num 2)) else s.

(** [if (this.v[x] > 0xFF) this.v[x] -= 0x100]. *)
Definition fold_high (x : Z) (s : chip8) : chip8 :=
  if js_gt (getV s x) (Num 0xFF) then setV s x (js_sub (getV s x) (Num 0x100)) else s.

(** [if (this.v[x] < 0) this.v[x] += 0x100]. *)
Definition fold_low (x : Z) (s : chip8) : chip8 :=
  if js_lt (getV s x) (Num 0) then setV s x (js_add (getV s x) (Num 0x100)) else s.

Definition op_ADD_byte (x byte : Z) (s : chip8) : chip8 :=
  fold_high x (setV s x (js_add (getV s x) (Num byte))).

Definition op_ADD (x y : Z) (s : chip8) : chip8 :=
  let s1 := setV s x (js_add (getV s x) (getV s y)) in
  let s2 := setV s1 0xF (of_bool (js_gt (getV s1 x) (Num 0xFF))) in
  fold_high x s2.

Definition op_SUB (x y : Z) (s : chip8) : chip8 :=
  let s1 := setV s 0xF (of_bool (js_gt (getV s x) (getV s y))) in
  let s2 := setV s1 x (js_sub (getV s1 x) (getV s1 y)) in
  fold_low x s2.

Definition op_SHR (x : Z) (s : chip8) : chip8 :=
  let s1 := setV s 0xF (Num (js_and (getV s x) (Num 1))) in
  setV s1 x (Num (js_shr (getV s1 x) 1)).

Definition op_SUBN (x y : Z) (s : chip8) : chip8 :=
  let s1 := setV s 0xF (of_bool (js_gt (getV s y) (getV s x))) in
  let s2 := setV s1 x (js_sub (getV s1 y) (getV s1 x)) in
  fold_low x s2.

Definition op_SHL (x : Z) (s : chip8) : chip8 :=
  let s1 := setV s 0xF (Num (js_and (getV s x) (Num 0x80))) in
  let s2 := setV s1 x (Num (js_shl (getV s1 x) 1)) in
  fold_high x s2.

Definition op_RND (h : host) (x byte : Z) (s : chip8) : chip8 :=
  setV s x (Num (Z.land (floor_int32 (float_mul (random h) (float_of_Z 0xFF))) byte)).

(** One tested sprite bit of [DRW]: [if (this.setPixel(vx + cx, vy + cy)) this.v[0xF] = 1]. *)
Definition draw_pixel (vx vy : value) (cy cx : Z) (s : chip8) : chip8 :=
  let '(erased, d) := setPixel (js_add vx (Num cx)) (js_add vy (Num cy)) (display s) in
  let s1 := set_display s d in
  if erased then setV s1 0xF (Num 1) else s1.

(** One step of the inner loop of [DRW], on the pair of the local [spr]
    and the emulator. *)
Definition draw_col (vx vy : value) (cy cx : Z) (a : value * chip8) : value * chip8 :=
  let '(spr, s) := a in
  (Num (js_shl spr 1),
   if 0 <? js_and spr (Num 0x80) then draw_pixel vx vy cy cx s else s).

(** One iteration of the outer loop of [DRW]. *)
Definition draw_row (vx vy : value) (cy : Z) (s : chip8) : chip8 :=
  let spr := load_byte s (js_add (i s) (Num cy)) in
  set_requestRender (snd (for_upto 8 0 (draw_col vx vy cy) (spr, s))) true.

Definition op_DRW (x y n : Z) (s : chip8) : chip8 :=
  let s1 := setV s 0xF (Num 0) in
  let vx := getV s1 x in
  let vy := getV s1 y in
  for_upto (Z.to_nat n) 0 (draw_row vx vy) s1.

Definition ten : spec_float := float_of_Z 10.

(** [for (k = count; k > 0; k--) { this.memory[this.i + k - 1] = parseInt(w % 10); w /= 10; }]
    where [w] is the handler's local copy of [this.v[x]]. *)
Fixpoint bcd_loop (h : host) (count : nat) (w : spec_float) (s : chip8) : chip8 :=
  match count with
  | O => s
  | S c =>
      bcd_loop h c (float_div w ten)
        (store_byte s (js_sub (js_add (i s) (Num (Z.of_nat count))) (Num 1))
                    (parseInt h (float_rem w ten)))
  end.

Definition op_LD_B (h : host) (x : Z) (s : chip8) : chip8 :=
  bcd_loop h 3 (to_float (getV s x)) s.

(** [for (k = 0; k <= x; k++) this.memory[this.i + k] = this.v[k]]. *)
Definition op_LD_I_Vx (x : Z) (s : chip8) : chip8 :=
  for_upto (Z.to_nat (x + 1)) 0
    (fun k s => store_byte s (js_add (i s) (Num k)) (getV s k)) s.

(** [for (k = 0; k <= x; k++) this.v[k] = this.memory[this.i + k]]. *)
Definition op_LD_Vx_I (x : Z) (s : chip8) : chip8 :=
  for_upto (Z.to_nat (x + 1)) 0
    (fun k s => setV s k (load_byte s (js_add (i s) (Num k)))) s.

(** The [0x8000] family, selected by [opcode & 0xF]. *)
Definition exec_8 (opcode x y : Z) (s : chip8) : chip8 :=
  let sel := Z.land opcode 0xF in
  if sel =? 0 then setV s x (getV s y)
  else if sel =? 1 then setV s x (Num (js_or (getV s x) (getV s y)))
  else if sel =? 2 then setV s x (Num (js_and (getV s x) (getV s y)))
  else if sel =? 3 then setV s x (Num (js_xor (getV s x) (getV s y)))
  else if sel =? 4 then op_ADD x y s
  else if sel =? 5 then op_SUB x y s
  else if sel =? 6 then op_SHR x s
  else if sel =? 7 then op_SUBN x y s
  else if sel =? 0xE then op_SHL x s
  else s.

(** The [0xE000] family: both key instructions are empty stubs. *)
Definition exec_E (opcode : Z) (s : chip8) : chip8 :=
  let sel := Z.land opcode 0xFF in
  if sel =? 0x9E then s
  else if sel =? 0xA1 then s
  else s.

(** The [0xF000] family, selected by [opcode & 0xFF]. *)
Definition exec_F (h : host) (opcode x : Z) (s : chip8) : chip8 :=
  let sel := Z.land opcode 0xFF in
  if sel =? 7 then setV s x (dt s)
  else if sel =? 0x0A then s
  else if sel =? 0x15 then set_dt s (getV s x)
  else if sel =? 0x18 then set_st s (getV s x)
  else if sel =? 0x1E then set_i s (js_add (i s) (getV s x))
  else if sel =? 0x29 then set_i s (js_mul (getV s x) (Num 5))
  else if sel =? 0x33 then op_LD_B h x s
  else if sel =? 0x55 then op_LD_I_Vx x s
  else if sel =? 0x65 then op_LD_Vx_I x s
  else s.

(** The [0x0000] family, selected by the whole opcode. *)
Definition exec_0 (h : host) (opcode : Z) (s : chip8) : chip8 :=
  if opcode =? 0xE0 then op_CLS h s
  else if opcode =? 0xEE then op_RET s
  else s.

(** The outer [switch (opcode & 0xF000)], run after [this.pc += 2]. *)
Definition dispatch (h : host) (opcode : Z) (s : chip8) : completion :=
  let addr := Z.land opcode 0xFFF in
  let x := Z.shiftr (Z.land opcode 0xF00) 8 in
  let y := Z.shiftr (Z.land opcode 0xF0) 4 in
  let byte := Z.land opcode 0xFF in
  let top := Z.land opcode 0xF000 in
  if top =? 0 then Normal (exec_0 h opcode s)
  else if top =? 0x1000 then Normal (set_pc s (Num addr))
  else if top =? 0x2000 then Normal (op_CALL addr s)
  else if top =? 0x3000 then Normal (skip_if (strict_eq (getV s x) (Num byte)) s)
  else if top =? 0x4000 then Normal (skip_if (negb (strict_eq (getV s x) (Num byte))) s)
  else if top =? 0x5000 then Normal (skip_if (strict_eq (getV s x) (getV s y)) s)
  else if top =? 0x6000 then Normal (setV s x (Num byte))
  else if top =? 0x7000 then Normal (op_ADD_byte x byte s)
  else if top =? 0x8000 then Normal (exec_8 opcode x y s)
  else if top =? 0x9000 then Normal (skip_if (negb (strict_eq (getV s x) (getV s y))) s)
  else if top =? 0xA000 then Normal (set_i s (Num addr))
  else if top =? 0xB000 then Normal (set_pc s (js_add (Num addr) (getV s 0)))
  else if top =? 0xC000 then Normal (op_RND h x byte s)
  else if top =? 0xD000 then Normal (op_DRW x y (Z.land opcode 0xF) s)
  else if top =? 0xE000 then Normal (exec_E opcode s)
  else if top =? 0xF000 then Normal (exec_F h opcode x s)
  else Throw (UnknownOpcode opcode) s.

Definition runCycle (h : host) (s : chip8) : completion :=
  let opcode := fetch s in
  dispatch h opcode (set_pc s (js_add (pc s) (Num 2))).

(** ** Runs of the machine *)

(** The emulator after a successful [load] of program [p] into a freshly
    constructed instance (what [load] hands to its callback). *)
Definition boot (p : list Z) : chip8 :=
  set_memory Chip8 (copy_bytes 0x200 p (memory Chip8)).

(** Successive calls of [runCycle], one host behaviour per cycle, stopping
    at the first exception. *)
Fixpoint run (hs : list host) (s : chip8) : completion :=
  match hs with
  | [] => Normal s
  | h :: hs' =>
      match runCycle h s with
      | Normal s' => run hs' s'
      | Throw e s' => Throw e s'
      end
  end.

(** A host whose renderer leaves the array it was handed alone. *)
Definition host0 : host :=
  {| random := S754_zero false;
     renderer_clear := fun d => d;
     parseInt_exponent := fun _ => 0 |}.

(** The state in which a completion ends. *)
Definition final (c : completion) : chip8 :=
  match c with
  | Normal s => s
  | Throw _ s => s
  end.

(** ** Predicates used in the statements *)

(** A number in [0, 255]. *)
Definition is_byte (a : value) : bool :=
  match a with
  | Num z => (0 <=? z) && (z <=? 255)
  | _ => false
  end.

(** All sixteen registers hold numbers in [0, 255]. *)
Definition regs_in_range (s : chip8) : bool :=
  forallb (fun k => is_byte (getV s (Z.of_nat k))) (seq 0 16).

(** The cycle about to run is a [CALL] with [sp] at 15, or a [RET] with
    [sp] at 0. *)
Definition stack_overflow (s : chip8) : bool :=
  (Z.land (fetch s) 0xF000 =? 0x2000) && (sp s =? 15).

Definition stack_underflow (s : chip8) : bool :=
  (fetch s =? 0xEE) && (sp s =? 0).

(** No cycle of the run is one of those two. *)
Fixpoint within_stack (hs : list host) (s : chip8) : bool :=
  match hs with
  | [] => true
  | h :: hs' =>
      negb (stack_overflow s) && negb (stack_underflow s)
      && within_stack hs' (final (runCycle h s))
  end.

(** The cycle about to run is [Fx65] and one of the bytes it reads lies
    outside memory. *)
Definition block_load_outside (s : chip8) : bool :=
  let opcode := fetch s in
  (Z.land opcode 0xF0FF =? 0xF065)
  && negb (match i s with
           | Num a => (0 <=? a) && (a + Z.shiftr (Z.land opcode 0xF00) 8 <? 0x1000)
           | _ => false
           end).

(** ** The pixels of one draw *)

(** The display key [setPixel] computes for sprite bit [(cx, cy)] of a
    sprite drawn at [(vx, vy)]. *)
Definition sprite_key (vx vy : value) (cy cx : Z) : key :=
  key_of (pixel_location (js_add vx (Num cx)) (js_add vy (Num cy))).

(** The keys toggled by the inner loop of [DRW] from column [cx] on, for
    [count] columns, in the order of the loop: the loop of [draw_row] with
    the toggling replaced by collecting the key. *)
Fixpoint row_keys (vx vy : value) (cy : Z) (count : nat) (cx : Z) (spr : value) : list key :=
  match count with
  | O => []
  | S c =>
      (if 0 <? js_and spr (Num 0x80) then [sprite_key vx vy cy cx] else [])
      ++ row_keys vx vy cy c (cx + 1) (Num (js_shl spr 1))
  end.

(** The keys toggled by the outer loop from row [cy] on, for [count] rows
    read at [this.i + cy]. *)
Fixpoint rows_keys (s : chip8) (vx vy : value) (count : nat) (cy : Z) : list key :=
  match count with
  | O => []
  | S c =>
      row_keys vx vy cy 8 0 (load_byte s (js_add (i s) (Num cy)))
      ++ rows_keys s vx vy c (cy + 1)
  end.

(** The keys toggled by [DRW] with [n] rows and sprite origin [(vx, vy)]. *)
Definition sprite_keys (s : chip8) (vx vy : value) (n : Z) : list key :=
  rows_keys s vx vy (Z.to_nat n) 0.

(** The coordinate [DRW] reads from register [x]: it reads after it has
    cleared [V[0xF]]. *)
Definition drawn_at (s : chip8) (x : Z) : value := getV (setV s 0xF (Num 0)) x.

(** [setPixel] on the key it computed: the flag it returns and the display
    it leaves. *)
Definition toggle (k : key) (d : jsarray) : bool * jsarray :=
  let d' := arr_set d k (Num (js_xor (arr_get d k) (Num 1))) in
  (js_not (arr_get d' k), d').

(** Toggling a list of keys in order, collecting whether any toggle
    reported an erased pixel. *)
Definition toggle_all (ks : list key) (a : bool * jsarray) : bool * jsarray :=
  foldl (fun '(f, d) k => let '(e, d') := toggle k d in (f || e, d')) a ks.

(** State [s1] met inside a draw started in [s]: its display is [d], its
    flag register was cleared and then set iff [f], memory and [I] are
    those of [s]. *)
Definition drawing (s s1 : chip8) (a : bool * jsarray) : Prop :=
  display s1 = snd a
  /\ v s1 = (if fst a then arr_set (arr_set (v s) (Idx 0xF) (Num 0)) (Idx 0xF) (Num 1)
            else arr_set (v s) (Idx 0xF) (Num 0))
  /\ memory s1 = memory s
  /\ i s1 = i s.

(** The flat index [setPixel] computes for integer coordinates. *)
Definition wrap_int (c d : Z) : Z := if d <? c then c - d else if c <? 0 then c + d else c.
Definition location (x y : Z) : Z := wrap_int x 64 + wrap_int y 32 * 64.

(** A display cell that counts as an unlit pixel: [0], or never written. *)
Definition unlit (d : jsarray) (k : key) : bool := ToInt32 (arr_get d k) =? 0.

(** Every cell of the 64x32 buffer holds 0 or 1. *)
Definition pixels_binary (d : jsarray) : bool :=
  forallb (fun k => match arr_get d (Idx (Z.of_nat k)) with
                    | Num z => (z =? 0) || (z =? 1)
                    | _ => false
                    end) (seq 0 2048).

(** The three values that the BCD loop hands to [parseInt] for [z], checked
    against the decimal digits of [z], last digit first. *)
Definition bcd_check (h : host) (z : Z) : bool :=
  let w0 := float_of_Z z in
  let w1 := float_div w0 ten in
  let w2 := float_div w1 ten in
  match parseInt h (float_rem w0 ten), parseInt h (float_rem w1 ten),
        parseInt h (float_rem w2 ten) with
  | Num d0, Num d1, Num d2 => (d0 =? z mod 10) && (d1 =? z / 10 mod 10) && (d2 =? z / 100)
  | _, _, _ => false
  end.

(** ** Checks run over a range of integers *)

(** [P k && P (k + 1) && ...], [n] times. *)
Fixpoint all_from (P : Z -> bool) (n : nat) (k : Z) : bool :=
  match n with
  | O => true
  | S n' => P k && all_from P n' (k + 1)
  end.

(** The fields that [runCycle] masks out of a 16-bit opcode, against
    their arithmetic reading. *)
Definition decode_check (op : Z) : bool :=
  (Z.land op 0xF000 =? 4096 * (op / 4096))
  && (Z.land op 0xFFF =? op mod 4096)
  && (Z.shiftr (Z.land op 0xF00) 8 =? (op / 256) mod 16)
  && (Z.shiftr (Z.land op 0xF0) 4 =? (op / 16) mod 16)
  && (Z.land op 0xFF =? op mod 256)
  && (Z.land op 0xF =? op mod 16).

(** A 16-bit word read as two bytes [a] (high) and [b] (low): joining them
    with [|], and the bitwise operators on the two bytes. *)
Definition byte_pair_check (op : Z) : bool :=
  let a := op / 256 in
  let b := op mod 256 in
  (Z.lor (a * 256) b =? op)
  && (Z.lor a b <=? 255) && (0 <=? Z.lor a b)
  && (Z.land a b <=? 255) && (0 <=? Z.land a b)
  && (Z.lxor a b <=? 255) && (0 <=? Z.lxor a b).

(** [opcode & 0xF000] is one of the sixteen [case] labels of [runCycle]. *)
Definition top_nibble_handled (op : Z) : bool :=
  let top := Z.land op 0xF000 in
  existsb (Z.eqb top)
    [0; 0x1000; 0x2000; 0x3000; 0x4000; 0x5000; 0x6000; 0x7000;
     0x8000; 0x9000; 0xA000; 0xB000; 0xC000; 0xD000; 0xE000; 0xF000].


(** Every register holds a number in [0, 255], as a proposition. *)
Definition regs_ok (s : chip8) : Prop :=
  forall k, 0 <= k < 16 -> is_byte (getV s k) = true.

(** [opcode & 0xF0FF == 0xF065] is the path [runCycle] takes to [Fx65]:
    case [0xF000] of the outer switch, case [0x65] of the inner one. *)
Definition fx65_check (op : Z) : bool :=
  Bool.eqb (Z.land op 0xF0FF =? 0xF065)
           ((Z.land op 0xF000 =? 0xF000) && (Z.land op 0xFF =? 0x65)).

(** ** start, stop and the interval callback *)


(** An emulator together with the host's table of interval timers:
    [loop] is the handle stored in [this.loop] ([None] before the first
    [start]), [timers] the handles of the intervals that are installed,
    [next_timer] the handle the next [setInterval] returns. *)
Record machine : Type := {
  core : chip8;
  loop : option nat;
  timers : list nat;
  next_timer : nat
}.

(** [start()]: sets [running], installs a new interval and stores its
    handle in [this.loop]. *)
Definition start (m : machine) : machine :=
  {| core := set_running (core m) true;
     loop := Some (next_timer m);
     timers := next_timer m :: timers m;
     next_timer := S (next_timer m) |}.

(** [stop()]: [clearInterval(this.loop)], and nothing else. *)
Definition stop (m : machine) : machine :=
  {| core := core m;
     loop := loop m;
     timers := match loop m with
               | Some t => filter (fun t' => t' <> t) (timers m)
               | None => timers m
               end;
     next_timer := next_timer m |}.

(** ** The fields a cycle assigns *)

Inductive field : Type :=
| FMemory | FStack | FV | FI | FDT | FST | FPC | FSP | FRunning | FDisplay | FRequestRender.

(** Field [f] has the same value in [s'] as in [s]. *)
Definition keeps (f : field) (s s' : chip8) : Prop :=
  match f with
  | FMemory => memory s' = memory s
  | FStack => stack s' = stack s
  | FV => v s' = v s
  | FI => i s' = i s
  | FDT => dt s' = dt s
  | FST => st s' = st s
  | FPC => pc s' = pc s
  | FSP => sp s' = sp s
  | FRunning => running s' = running s
  | FDisplay => display s' = display s
  | FRequestRender => requestRender s' = requestRender s
  end.

(** The fields assigned by the handler of family [0xF000] selected by
    [sel = opcode & 0xFF], read off the inner switch of [runCycle]. *)
Definition writes_F (sel : Z) : list field :=
  if (sel =? 7) || (sel =? 0x65) then [FPC; FV]
  else if sel =? 0x15 then [FPC; FDT]
  else if sel =? 0x18 then [FPC; FST]
  else if (sel =? 0x1E) || (sel =? 0x29) then [FPC; FI]
  else if (sel =? 0x33) || (sel =? 0x55) then [FPC; FMemory]
  else [FPC].

(** The fields that the handler selected by [opcode] assigns, read off
    the branches of [runCycle]; [pc] is assigned by every cycle. *)
Definition writes (opcode : Z) : list field :=
  let top := Z.land opcode 0xF000 in
  if top =? 0 then
    if opcode =? 0xE0 then [FPC; FDisplay]
    else if opcode =? 0xEE then [FPC; FSP]
    else [FPC]
  else if top =? 0x2000 then [FPC; FSP; FStack]
  else if (top =? 0x6000) || (top =? 0x7000) || (top =? 0x8000) || (top =? 0xC000)
  then [FPC; FV]
  else if top =? 0xA000 then [FPC; FI]
  else if top =? 0xD000 then [FPC; FV; FDisplay; FRequestRender]
  else if top =? 0xF000 then writes_F (Z.land opcode 0xFF)
  else [FPC].

(** The cycle about to run is neither a [CALL] nor a [RET]. *)
Definition stack_neutral (s : chip8) : bool :=
  negb (Z.land (fetch s) 0xF000 =? 0x2000) && negb (fetch s =? 0x00EE).

(** Every cycle of the run is stack-neutral. *)
Fixpoint body_neutral (hs : list host) (s : chip8) : bool :=
  match hs with
  | [] => true
  | h :: hs' => stack_neutral s && body_neutral hs' (final (runCycle h s))
  end.

(** The bytes of the font table, as stored. *)
Definition font_byte (k : Z) : Z := default 0 (hexDigits !! Z.to_nat k).

(** The mask [0xF0FF] splits into the outer selector [opcode & 0xF000] and
    the inner selector [opcode & 0xFF] of family [0xF000]. *)
Definition mask_check (op : Z) : bool :=
  (Z.land op 0xF0FF =? Z.land op 0xF000 + Z.land op 0xFF)
  && (Z.land op 0xFF <=? 255) && (0 <=? Z.land op 0xFF).

(** A display cell that counts as a lit pixel: its 32-bit integer value
    is 1. *)
Definition lit (d : jsarray) (k : key) : bool := ToInt32 (arr_get d k) =? 1.

(** The font table is in [memory[0..80)], as [reset] leaves it. *)
Definition font_intact (s : chip8) : bool :=
  all_from (fun k => match load_byte s (Num k) with
                     | Num z => z =? font_byte k
                     | _ => false
                     end) 80 0.

(** ** A loaded machine, written out *)

(** The memory layout after [reset] and [load]: the font table, zeros up
    to [0x200], the program image, zeros to the end of the 4096 bytes. *)
Definition image (p : list Z) : list byte :=
  map byte_of_Z hexDigits ++ replicate 432 x00 ++ map byte_of_Z p
    ++ replicate (3584 - length p) x00.

(** A machine with that memory and every other field as [reset] sets it,
    on fresh [stack], [v] and [display] arrays. *)
Definition loaded (p : list Z) : chip8 :=
  {| memory := image p; stack := ∅; v := zero_array 16 ∅;
     i := Num 0; dt := Num 0; st := Num 0; pc := Num 0x200; sp := 0;
     running := false; display := zero_array (displayWidth * displayHeight) ∅;
     requestRender := false |}.

(** * Properties *)

(** ** Arithmetic of the value layer *)

Lemma wrap32_small z : - 2 ^ 31 <= z < 2 ^ 31 -> wrap32 z = z.
Proof. intros Hz. unfold wrap32. rewrite Z.mod_small; lia. Qed.

Lemma Z_of_byte_range b : 0 <= Z_of_byte b <= 255.
Proof. unfold Z_of_byte. pose proof (Byte.to_N_bounded b). lia. Qed.

Lemma Z_of_byte_of_Z z : Z_of_byte (byte_of_Z z) = z mod 256.
Proof.
  unfold byte_of_Z, Z_of_byte.
  pose proof (Z.mod_pos_bound z 256 ltac:(lia)) as Hm.
  destruct (Byte.of_N (Z.to_N (z mod 256))) as [b|] eqn:E; simpl.
  - apply Byte.to_of_N in E. rewrite E. lia.
  - apply Byte.of_N_None_iff in E. lia.
Qed.

(** A boolean property checked on every integer below [n] holds below [n]. *)
Lemma all_from_spec (P : Z -> bool) (n : nat) (k : Z) :
  all_from P n k = true -> forall z, k <= z < k + Z.of_nat n -> P z = true.
Proof.
  revert k. induction n as [|n IH]; intros k H z Hz; [lia |].
  simpl in H. apply andb_prop in H as [Hk Hrest].
  destruct (Z.eq_dec z k) as [-> | Hne]; [done |].
  apply (IH (k + 1)); [done | lia].
Qed.

Lemma forall_below (P : Z -> bool) (n : Z) :
  all_from P (Z.to_nat n) 0 = true -> forall z, 0 <= z < n -> P z = true.
Proof. intros H z Hz. apply (all_from_spec P (Z.to_nat n) 0); [done | lia]. Qed.

Lemma decode_fields op :
  0 <= op < 65536 ->
  Z.land op 0xF000 = 4096 * (op / 4096)
  /\ Z.land op 0xFFF = op mod 4096
  /\ Z.shiftr (Z.land op 0xF00) 8 = (op / 256) mod 16
  /\ Z.shiftr (Z.land op 0xF0) 4 = (op / 16) mod 16
  /\ Z.land op 0xFF = op mod 256
  /\ Z.land op 0xF = op mod 16.
Proof.
  intros Hop.
  assert (decode_check op = true) as H.
  { apply (forall_below decode_check 65536); [by vm_compute | lia]. }
  unfold decode_check in H.
  repeat (apply andb_prop in H; destruct H as [H ?]).
  repeat split; by apply Z.eqb_eq.
Qed.

Lemma byte_pair_ops a b :
  0 <= a <= 255 -> 0 <= b <= 255 ->
  Z.lor (a * 256) b = a * 256 + b
  /\ 0 <= Z.lor a b <= 255
  /\ 0 <= Z.land a b <= 255
  /\ 0 <= Z.lxor a b <= 255.
Proof.
  intros Ha Hb.
  assert (byte_pair_check (a * 256 + b) = true) as H.
  { apply (forall_below byte_pair_check 65536); [by vm_compute | lia]. }
  unfold byte_pair_check in H.
  replace ((a * 256 + b) / 256) with a in H by (Z.div_mod_to_equations; lia).
  replace ((a * 256 + b) mod 256) with b in H by (Z.div_mod_to_equations; lia).
  repeat (apply andb_prop in H; destruct H as [H ?]).
  repeat match goal with
         | H : (_ =? _) = true |- _ => apply Z.eqb_eq in H
         | H : (_ <=? _) = true |- _ => apply Z.leb_le in H
         end.
  lia.
Qed.

(** ** Registers and record fields *)

Lemma getV_setV_eq s k a : getV (setV s k a) k = a.
Proof. unfold getV, setV, arr_get, arr_set. simpl. by rewrite lookup_insert_eq. Qed.

Lemma getV_setV_ne s k j a : k <> j -> getV (setV s k a) j = getV s j.
Proof.
  intros Hne. unfold getV, setV, arr_get, arr_set. simpl.
  rewrite lookup_insert_ne; [done | congruence].
Qed.

(** ** The fetched opcode is a 16-bit word *)

Lemma load_byte_cases s a :
  load_byte s a = Undefined \/ exists b, load_byte s a = Num b /\ 0 <= b <= 255.
Proof.
  unfold load_byte, mem_get. destruct a as [| |z]; auto.
  destruct (0 <=? z); auto.
  destruct (memory s !! Z.to_nat z) as [b|]; simpl; auto.
  right. exists (Z_of_byte b). split; [done | apply Z_of_byte_range].
Qed.

Lemma fetch_range s : 0 <= fetch s < 65536.
Proof.
  unfold fetch, js_or, js_shl.
  destruct (load_byte_cases s (pc s)) as [-> | (hi & -> & Hhi)];
    destruct (load_byte_cases s (js_add (pc s) (Num 1))) as [-> | (lo & -> & Hlo)];
    simpl ToInt32.
  - vm_compute. split; [discriminate | done].
  - rewrite (wrap32_small lo) by lia. change (wrap32 (wrap32 (Z.shiftl 0 8))) with 0.
    rewrite Z.lor_0_l. lia.
  - rewrite (wrap32_small hi) by lia. rewrite Z.shiftl_mul_pow2 by lia.
    rewrite !(wrap32_small (hi * 2 ^ 8)) by lia. rewrite Z.lor_0_r. lia.
  - rewrite (wrap32_small hi), (wrap32_small lo) by lia. rewrite Z.shiftl_mul_pow2 by lia.
    rewrite !(wrap32_small (hi * 2 ^ 8)) by lia.
    change (2 ^ 8) with 256.
    destruct (byte_pair_ops hi lo Hhi Hlo) as (-> & _). lia.
Qed.

(** ** No opcode reaches the [default] branch *)

Lemma dispatch_never_throws h op s :
  0 <= op < 65536 -> exists s', dispatch h op s = Normal s'.
Proof.
  intros Hop.
  assert (top_nibble_handled op = true) as H.
  { apply (forall_below top_nibble_handled 65536); [by vm_compute | lia]. }
  unfold top_nibble_handled in H. cbn [existsb] in H.
  unfold dispatch.
  repeat match goal with
         | |- context [Z.land op 0xF000 =? ?c] =>
             destruct (Z.land op 0xF000 =? c) eqn:?; [eauto |]
         end.
  simpl in H. discriminate.
Qed.

Lemma runCycle_never_throws h s : exists s', runCycle h s = Normal s'.
Proof. unfold runCycle. apply dispatch_never_throws, fetch_range. Qed.

(** ** Decoding an opcode given by its nibbles *)

Lemma nibble_fields t x y n :
  0 <= t < 16 -> 0 <= x < 16 -> 0 <= y < 16 -> 0 <= n < 16 ->
  let op := 4096 * t + 256 * x + 16 * y + n in
  Z.land op 0xF000 = 4096 * t
  /\ Z.land op 0xFFF = 256 * x + 16 * y + n
  /\ Z.shiftr (Z.land op 0xF00) 8 = x
  /\ Z.shiftr (Z.land op 0xF0) 4 = y
  /\ Z.land op 0xFF = 16 * y + n
  /\ Z.land op 0xF = n.
Proof.
  intros Ht Hx Hy Hn op.
  destruct (decode_fields op) as (-> & -> & -> & -> & -> & ->); [unfold op; lia |].
  unfold op. repeat split; Z.div_mod_to_equations; lia.
Qed.

(** Rewrites the fields of the opcode [4096 t + 256 x + 16 y + n] in the goal. *)
Ltac decode_nibbles t x y n :=
  let H := fresh "Hdec" in
  pose proof (nibble_fields t x y n) as H;
  cbv zeta in H;
  destruct H as (?Hd & ?Hd & ?Hd & ?Hd & ?Hd & ?Hd); [lia | lia | lia | lia |];
  unfold dispatch, exec_0, exec_8, exec_E, exec_F;
  repeat match goal with
         | Hd : Z.land _ _ = _ |- _ => rewrite ?Hd; clear Hd
         | Hd : Z.shiftr _ _ = _ |- _ => rewrite ?Hd; clear Hd
         end;
  simpl (_ =? _).


Lemma addr_fields t nnn :
  0 <= t < 16 -> 0 <= nnn < 4096 ->
  Z.land (4096 * t + nnn) 0xF000 = 4096 * t /\ Z.land (4096 * t + nnn) 0xFFF = nnn.
Proof.
  intros Ht Hn.
  destruct (decode_fields (4096 * t + nnn)) as (-> & -> & _); [lia |].
  split; Z.div_mod_to_equations; lia.
Qed.

(** ** Unknown opcodes *)

(** C1, on the code: the four opcodes the claim names as unknown complete
    normally, leaving every field but [pc] as it was; no error is reported. *)
Theorem unknown_opcodes_are_ignored h s x y :
  0 <= x < 16 -> 0 <= y < 16 ->
  fetch s = 0x0123 \/ fetch s = 0x800F + 256 * x + 16 * y
  \/ fetch s = 0xE000 + 256 * x \/ fetch s = 0xF099 + 256 * x ->
  runCycle h s = Normal (set_pc s (js_add (pc s) (Num 2))).
Proof.
  intros Hx Hy Hf. unfold runCycle.
  destruct Hf as [-> | [-> | [-> | ->]]].
  - reflexivity.
  - replace (0x800F + 256 * x + 16 * y) with (4096 * 8 + 256 * x + 16 * y + 15) by lia.
    decode_nibbles 8 x y 15. reflexivity.
  - replace (0xE000 + 256 * x) with (4096 * 14 + 256 * x + 16 * 0 + 0) by lia.
    decode_nibbles 14 x 0 0. reflexivity.
  - replace (0xF099 + 256 * x) with (4096 * 15 + 256 * x + 16 * 9 + 9) by lia.
    decode_nibbles 15 x 9 9. reflexivity.
Qed.

Lemma unknown_opcodes_are_ignored_witness :
  fetch (boot [0x01; 0x23]) = 0x0123
  /\ runCycle host0 (boot [0x01; 0x23])
     = Normal (set_pc (boot [0x01; 0x23]) (js_add (pc (boot [0x01; 0x23])) (Num 2))).
Proof.
  split; [by vm_compute |].
  apply (unknown_opcodes_are_ignored host0 (boot [0x01; 0x23]) 0 0); [lia | lia |].
  left. by vm_compute.
Defined.

(** ** SHL *)

(** C2, on the code: after [LD V0, 0x80] and [SHL V0] the flag register
    holds 128, the masked bit itself, not 1. *)
Theorem shl_flag_is_the_masked_bit :
  let s := final (run [host0] (boot [0x60; 0x80; 0x80; 0x0E])) in
  getV s 0 = Num 0x80 /\ fetch s = 0x800E
  /\ getV (final (runCycle host0 s)) 0xF = Num 128
  /\ getV (final (runCycle host0 s)) 0 = Num 0.
Proof. by vm_compute. Qed.

(** ** CLS *)

(** C8, on the code: with a renderer that does not write to the array it
    was handed, a pixel lit by a draw is still lit after [CLS]. *)
Theorem cls_leaves_display_buffer :
  let s := final (run [host0; host0] (boot [0xA0; 0x00; 0xD0; 0x15; 0x00; 0xE0])) in
  fetch s = 0x00E0
  /\ arr_get (display s) (Idx 0) = Num 1
  /\ arr_get (display (final (runCycle host0 s))) (Idx 0) = Num 1.
Proof. by vm_compute. Qed.

(** What [CLS] does to the display is what the renderer does to it. *)
Lemma cls_display h s :
  fetch s = 0x00E0 -> display (final (runCycle h s)) = renderer_clear h (display s).
Proof. intros Hf. unfold runCycle. rewrite Hf. reflexivity. Qed.

(** ** load *)

(** C9, on the code: when the loader reports an error without a program,
    [load] throws before its callback runs; when it reports an error along
    with bytes, the bytes are copied into memory all the same. *)
Theorem load_error_not_isolated :
  load (Some tt) None Chip8 = LoadThrow TypeError Chip8
  /\ load (Some tt) (Some [0xAB]) Chip8 = Callback (Some tt) (boot [0xAB])
  /\ load_byte Chip8 (Num 0x200) = Num 0
  /\ load_byte (boot [0xAB]) (Num 0x200) = Num 0xAB.
Proof.
  split; [reflexivity |]. split; [reflexivity |]. split; by vm_compute.
Qed.

(** ** setPixel at the edge of the buffer *)

(** C10: a non-negative coordinate is reduced only when it is strictly
    greater than the dimension, so a coordinate equal to the dimension is
    kept: column 64 of row [y] is flat index [64 + y * 64], and column 64
    of row 31 as well as every pixel of row 32 lie at or past index 2048.
    The cell [setPixel] writes is the one at that index. *)
Theorem pixel_at_dimension_not_wrapped (x y : Z) (d : jsarray) :
  0 <= x -> 0 <= y ->
  wrap_coord (Num x) displayWidth = Num (if 64 <? x then x - 64 else x)
  /\ wrap_coord (Num y) displayHeight = Num (if 32 <? y then y - 32 else y)
  /\ (y <= 32 -> pixel_location (Num 64) (Num y) = Num (64 + y * 64))
  /\ pixel_location (Num 64) (Num 31) = Num 2048
  /\ (exists k, pixel_location (Num x) (Num 32) = Num k /\ 2048 <= k)
  /\ snd (setPixel (Num x) (Num y) d)
     = arr_set d (key_of (pixel_location (Num x) (Num y)))
         (Num (js_xor (arr_get d (key_of (pixel_location (Num x) (Num y)))) (Num 1))).
Proof.
  intros Hx Hy.
  assert (forall c dim, 0 <= c -> 0 < dim ->
            wrap_coord (Num c) dim = Num (if dim <? c then c - dim else c)) as Hw.
  { intros c dim Hc Hdim. unfold wrap_coord, js_gt, js_lt, js_sub, js_add. simpl.
    destruct (dim <? c); [done |].
    destruct (Z.ltb_spec c 0); [lia | done]. }
  split; [| split; [| split; [| split; [| split]]]].
  - apply Hw; [done | by vm_compute].
  - apply Hw; [done | by vm_compute].
  - intros Hy32. unfold pixel_location.
    rewrite !Hw by (done || by vm_compute).
    unfold displayWidth, displayHeight. simpl (64 <? 64).
    destruct (Z.ltb_spec 32 y); [lia | done].
  - reflexivity.
  - unfold pixel_location. rewrite !Hw by (done || by vm_compute || lia).
    unfold displayWidth, displayHeight. simpl (32 <? 32). cbv iota.
    destruct (Z.ltb_spec 64 x); eexists; (split; [reflexivity | simpl; lia]).
  - reflexivity.
Qed.

Lemma pixel_at_dimension_not_wrapped_witness :
  pixel_location (Num 64) (Num 31) = Num 2048
  /\ snd (setPixel (Num 64) (Num 31) ∅) = arr_set ∅ (Idx 2048) (Num 1).
Proof.
  destruct (pixel_at_dimension_not_wrapped 64 31 ∅)
    as (_ & _ & _ & Hloc & _ & Hset); [lia | lia |].
  split; [exact Hloc |].
  rewrite Hset, Hloc. reflexivity.
Defined.

(** ** CALL and RET *)

(** C4: from a state with [sp < 16], a [CALL] cycle fetched at address [a]
    followed by a [RET] cycle leaves [pc] at [a + 2] and [sp] as it was. *)
Theorem call_ret_round_trip h1 h2 s a nnn :
  sp s < 16 ->
  pc s = Num a ->
  0 <= nnn < 4096 ->
  fetch s = 0x2000 + nnn ->
  fetch (final (runCycle h1 s)) = 0x00EE ->
  pc (final (runCycle h2 (final (runCycle h1 s)))) = Num (a + 2)
  /\ sp (final (runCycle h2 (final (runCycle h1 s)))) = sp s.
Proof.
  intros _ Hpc Hn Hf.
  assert (runCycle h1 s = Normal (op_CALL nnn (set_pc s (js_add (pc s) (Num 2))))) as ->.
  { unfold runCycle. rewrite Hf. unfold dispatch.
    destruct (addr_fields 2 nnn) as (Htop & Haddr); [lia | lia |].
    change (0x2000 + nnn) with (4096 * 2 + nnn).
    rewrite Htop, Haddr. reflexivity. }
  simpl final. intros Hf1.
  unfold runCycle at 1 2. rewrite Hf1. simpl final.
  unfold op_RET, op_CALL. simpl. rewrite Hpc. simpl.
  replace (sp s + 1 - 1) with (sp s) by lia.
  unfold arr_get, arr_set. rewrite lookup_insert_eq. simpl.
  split; [done | lia].
Qed.

Lemma call_ret_round_trip_witness :
  let s := boot [0x22; 0x04; 0x00; 0x00; 0x00; 0xEE] in
  pc (final (runCycle host0 (final (runCycle host0 s)))) = Num 0x202
  /\ sp (final (runCycle host0 (final (runCycle host0 s)))) = sp s.
Proof.
  intros s.
  apply (call_ret_round_trip host0 host0 s 0x200 0x204).
  - by vm_compute.
  - by vm_compute.
  - lia.
  - by vm_compute.
  - by vm_compute.
Defined.
(** ** Loops *)

Lemma for_upto_invariant {A : Type} (P : A -> Prop) (body : Z -> A -> A) n k a :
  (forall j x, P x -> P (body j x)) -> P a -> P (for_upto n k body a).
Proof.
  intros Hbody. revert k a. induction n as [|n IH]; intros k a Ha; simpl; auto.
Qed.

(** ** The stack pointer *)

Lemma sp_skip_if b s : sp (skip_if b s) = sp s.
Proof. by destruct b. Qed.

Lemma sp_fold_high x s : sp (fold_high x s) = sp s.
Proof. unfold fold_high. by destruct (js_gt _ _). Qed.

Lemma sp_fold_low x s : sp (fold_low x s) = sp s.
Proof. unfold fold_low. by destruct (js_lt _ _). Qed.

Lemma sp_op_ADD_byte x b s : sp (op_ADD_byte x b s) = sp s.
Proof. unfold op_ADD_byte. by rewrite sp_fold_high. Qed.

Lemma sp_exec_E op s : sp (exec_E op s) = sp s.
Proof. unfold exec_E. by repeat destruct (_ =? _). Qed.

Lemma sp_exec_8 op x y s : sp (exec_8 op x y s) = sp s.
Proof.
  unfold exec_8, op_ADD, op_SUB, op_SHR, op_SUBN, op_SHL.
  repeat match goal with
         | |- context [if ?b then _ else _] => destruct b
         end; rewrite ?sp_fold_high, ?sp_fold_low; reflexivity.
Qed.

Lemma sp_draw_pixel vx vy cy cx s : sp (draw_pixel vx vy cy cx s) = sp s.
Proof.
  unfold draw_pixel. destruct (setPixel _ _ _) as [[] d]; reflexivity.
Qed.

Lemma sp_set_requestRender s b : sp (set_requestRender s b) = sp s.
Proof. reflexivity. Qed.

Lemma sp_draw_row vx vy cy s : sp (draw_row vx vy cy s) = sp s.
Proof.
  unfold draw_row. rewrite sp_set_requestRender.
  apply (for_upto_invariant (fun a => sp (snd a) = sp s)); [| done].
  intros j [spr s1] H. unfold draw_col. cbn [snd] in *.
  destruct (0 <? _); [by rewrite sp_draw_pixel | done].
Qed.

Lemma sp_op_DRW x y n s : sp (op_DRW x y n s) = sp s.
Proof.
  unfold op_DRW.
  apply (for_upto_invariant (fun s1 => sp s1 = sp s)); [| done].
  intros j s1 H. by rewrite sp_draw_row.
Qed.

Lemma sp_bcd_loop h n w s : sp (bcd_loop h n w s) = sp s.
Proof.
  revert w s. induction n as [|n IH]; intros w s; simpl; [done |].
  by rewrite IH.
Qed.

Lemma sp_exec_F h op x s : sp (exec_F h op x s) = sp s.
Proof.
  unfold exec_F, op_LD_B, op_LD_I_Vx, op_LD_Vx_I.
  repeat match goal with
         | |- context [if ?b then _ else _] => destruct b
         end; rewrite ?sp_bcd_loop; try reflexivity.
  - apply (for_upto_invariant (fun s1 => sp s1 = sp s)); [| done]. by intros j s1 H.
  - apply (for_upto_invariant (fun s1 => sp s1 = sp s)); [| done]. by intros j s1 H.
Qed.

(** [CALL] adds one to [sp], [RET] takes one off, every other cycle leaves
    it alone; none of them compares it with a bound. *)
Lemma runCycle_sp h s :
  sp (final (runCycle h s))
  = if Z.land (fetch s) 0xF000 =? 0x2000 then sp s + 1
    else if fetch s =? 0x00EE then sp s - 1
    else sp s.
Proof.
  unfold runCycle. generalize (fetch s) as op. intros op.
  destruct (Z.eqb_spec op 0xEE) as [-> | Hret].
  { reflexivity. }
  unfold dispatch.
  destruct (Z.land op 0xF000 =? 0) eqn:E0.
  { destruct (Z.land op 0xF000 =? 0x2000) eqn:E2.
    { apply Z.eqb_eq in E0, E2. congruence. }
    unfold exec_0. simpl.
    destruct (op =? 0xE0); [reflexivity |].
    destruct (Z.eqb_spec op 0xEE); [done | reflexivity]. }
  destruct (Z.land op 0xF000 =? 0x1000) eqn:E1.
  { apply Z.eqb_eq in E1. rewrite E1. reflexivity. }
  destruct (Z.land op 0xF000 =? 0x2000) eqn:E2.
  { simpl. lia. }
  repeat match goal with
         | |- context [Z.land op 0xF000 =? ?c] => destruct (Z.land op 0xF000 =? c)
         end; cbn [final];
    rewrite ?sp_skip_if, ?sp_op_ADD_byte, ?sp_exec_8, ?sp_exec_E, ?sp_op_DRW, ?sp_exec_F; reflexivity.
Qed.

(** C3, as amended: along any run from a loaded program in which no [CALL]
    is executed with [sp] at 15 and no [RET] with [sp] at 0, [sp] stays in
    [0, 16). *)
Theorem sp_in_range_within_stack p hs :
  within_stack hs (boot p) = true ->
  0 <= sp (final (run hs (boot p))) < 16.
Proof.
  assert (0 <= sp (boot p) < 16) as H0 by (simpl; lia).
  revert H0. generalize (boot p) as s. clear p.
  induction hs as [|h hs IH]; intros s Hs Hw; simpl in *; [done |].
  apply andb_prop in Hw as [Hw Hrest]. apply andb_prop in Hw as [Hov Hun].
  destruct (runCycle_never_throws h s) as [s' Hs'].
  pose proof (runCycle_sp h s) as Hsp.
  rewrite Hs' in *. simpl in *.
  apply IH; [| done].
  rewrite Hsp. unfold stack_overflow, stack_underflow in *.
  destruct (Z.land (fetch s) 0xF000 =? 0x2000); simpl in *.
  - destruct (Z.eqb_spec (sp s) 15); [done | lia].
  - destruct (fetch s =? 0xEE); simpl in *; [| done].
    destruct (Z.eqb_spec (sp s) 0); [done | lia].
Qed.

Lemma sp_in_range_within_stack_witness :
  0 <= sp (final (run [host0; host0] (boot [0x22; 0x04; 0x00; 0x00; 0x00; 0xEE]))) < 16.
Proof.
  apply (sp_in_range_within_stack [0x22; 0x04; 0x00; 0x00; 0x00; 0xEE] [host0; host0]).
  by vm_compute.
Defined.

(** C3, as stated, fails: a [RET] as the first instruction of a loaded
    program takes [sp] from 0 to -1, and sixteen nested [CALL]s take it
    to 16. *)
Lemma sp_leaves_range :
  sp (final (run [host0] (boot [0x00; 0xEE]))) = -1
  /\ sp (final (run (replicate 16 host0) (boot [0x22; 0x00]))) = 16.
Proof. by vm_compute. Qed.

(** ** Memory stores *)

Lemma mem_get_set_eq m a x :
  0 <= a < Z.of_nat (length m) ->
  mem_get (mem_set m (Num a) x) (Num a) = Num (Z_of_byte (ToUint8 x)).
Proof.
  intros Ha. unfold mem_get, mem_set.
  destruct (Z.leb_spec 0 a); [| lia].
  rewrite list_lookup_insert_eq by lia. reflexivity.
Qed.

Lemma mem_get_set_ne m a b x :
  a <> b -> mem_get (mem_set m (Num a) x) (Num b) = mem_get m (Num b).
Proof.
  intros Hne. unfold mem_get, mem_set.
  destruct (Z.leb_spec 0 a); [| done].
  destruct (Z.leb_spec 0 b); [| done].
  rewrite list_lookup_insert_ne by lia. reflexivity.
Qed.

Lemma length_mem_set m a x : length (mem_set m a x) = length m.
Proof.
  unfold mem_set. destruct a as [| |z]; try done.
  destruct (0 <=? z); [apply length_insert | done].
Qed.

(** ** BCD *)

Lemma bcd_parse h z :
  0 <= z <= 255 ->
  parseInt h (float_rem (float_of_Z z) ten) = Num (z mod 10)
  /\ parseInt h (float_rem (float_div (float_of_Z z) ten) ten) = Num (z / 10 mod 10)
  /\ parseInt h (float_rem (float_div (float_div (float_of_Z z) ten) ten) ten) = Num (z / 100).
Proof.
  intros Hz.
  assert (bcd_check h z = true) as H.
  { apply (forall_below (bcd_check h) 256); [by vm_compute | lia]. }
  unfold bcd_check in H.
  destruct (parseInt h (float_rem (float_of_Z z) ten)) as [| |d0]; try done.
  destruct (parseInt h (float_rem (float_div (float_of_Z z) ten) ten)) as [| |d1]; try done.
  destruct (parseInt h (float_rem (float_div (float_div (float_of_Z z) ten) ten) ten))
    as [| |d2]; try done.
  apply andb_prop in H as [H H2]. apply andb_prop in H as [H0 H1].
  apply Z.eqb_eq in H0, H1, H2. by subst.
Qed.

(** C6: with [V[x]] in [0, 255] and the three bytes at [I] inside memory,
    [LD B, Vx] stores the hundreds, tens and units digits of [V[x]] at
    [I], [I + 1] and [I + 2]. *)
Theorem bcd_digits_stored h s x z a :
  0 <= x < 16 ->
  fetch s = 0xF033 + 256 * x ->
  length (memory s) = 4096%nat ->
  getV s x = Num z -> 0 <= z <= 255 ->
  i s = Num a -> 0 <= a -> a + 3 <= 4096 ->
  load_byte (final (runCycle h s)) (Num a) = Num (z / 100)
  /\ load_byte (final (runCycle h s)) (Num (a + 1)) = Num (z / 10 mod 10)
  /\ load_byte (final (runCycle h s)) (Num (a + 2)) = Num (z mod 10).
Proof.
  intros Hx Hf Hlen Hv Hz Hi Ha Ha3.
  unfold runCycle. rewrite Hf.
  replace (0xF033 + 256 * x) with (4096 * 15 + 256 * x + 16 * 3 + 3) by lia.
  decode_nibbles 15 x 3 3. cbv iota. simpl final.
  unfold op_LD_B.
  change (getV (set_pc s (js_add (pc s) (Num 2))) x) with (getV s x). rewrite Hv.
  destruct (bcd_parse h z Hz) as (D0 & D1 & D2).
  cbn [bcd_loop to_float]. rewrite D0, D1, D2.
  unfold store_byte, load_byte. cbn [memory set_memory i set_pc]. rewrite Hi.
  cbn [js_add js_sub ToNumber].
  replace (a + Z.of_nat 3 - 1) with (a + 2) by lia.
  replace (a + Z.of_nat 2 - 1) with (a + 1) by lia.
  replace (a + Z.of_nat 1 - 1) with a by lia.
  assert (forall dgt, 0 <= dgt < 256 -> Z_of_byte (ToUint8 (Num dgt)) = dgt) as Hd.
  { intros dgt Hdgt. simpl. rewrite Z_of_byte_of_Z. apply Z.mod_small. lia. }
  split; [| split].
  - rewrite mem_get_set_eq by (rewrite !length_mem_set; lia).
    rewrite Hd; [done |]. Z.div_mod_to_equations; lia.
  - rewrite mem_get_set_ne by lia.
    rewrite mem_get_set_eq by (rewrite !length_mem_set; lia).
    rewrite Hd; [done |]. Z.div_mod_to_equations; lia.
  - rewrite !mem_get_set_ne by lia.
    rewrite mem_get_set_eq by lia.
    rewrite Hd; [done |]. Z.div_mod_to_equations; lia.
Qed.

Lemma bcd_digits_stored_witness :
  let s := final (run [host0; host0] (boot [0x60; 234; 0xA3; 0x00; 0xF0; 0x33])) in
  load_byte (final (runCycle host0 s)) (Num 0x300) = Num 2
  /\ load_byte (final (runCycle host0 s)) (Num 0x301) = Num 3
  /\ load_byte (final (runCycle host0 s)) (Num 0x302) = Num 4.
Proof.
  intros s.
  apply (bcd_digits_stored host0 s 0 234 0x300).
  - lia.
  - by vm_compute.
  - by vm_compute.
  - by vm_compute.
  - lia.
  - by vm_compute.
  - lia.
  - lia.
Defined.

(** ** Registers stay bytes *)

Lemma is_byte_Num z : is_byte (Num z) = true <-> 0 <= z <= 255.
Proof. simpl. rewrite andb_true_iff, Z.leb_le, Z.leb_le. tauto. Qed.

Lemma is_byte_inv a : is_byte a = true -> exists z, a = Num z /\ 0 <= z <= 255.
Proof.
  destruct a as [| |z]; try done. intros H. exists z. split; [done | by apply is_byte_Num].
Qed.

Lemma regs_in_range_spec s : regs_in_range s = true <-> regs_ok s.
Proof.
  unfold regs_in_range, regs_ok. rewrite forallb_forall. split.
  - intros H k Hk. specialize (H (Z.to_nat k)).
    rewrite Z2Nat.id in H by lia. apply H. apply in_seq. lia.
  - intros H n Hn. apply in_seq in Hn. apply H. lia.
Qed.

Lemma getV_setV s k j a :
  getV (setV s k a) j = if decide (k = j) then a else getV s j.
Proof.
  destruct (decide (k = j)) as [-> | Hne].
  - apply getV_setV_eq.
  - by apply getV_setV_ne.
Qed.

Lemma regs_ok_setV s x a : regs_ok s -> is_byte a = true -> regs_ok (setV s x a).
Proof.
  intros Hs Ha k Hk. rewrite getV_setV. destruct (decide (x = k)); auto.
Qed.

Lemma regs_ok_same_v s s' : v s' = v s -> regs_ok s -> regs_ok s'.
Proof. intros Hv Hs k Hk. unfold getV. rewrite Hv. by apply Hs. Qed.

Lemma regs_ok_skip_if b s : regs_ok s -> regs_ok (skip_if b s).
Proof. by destruct b. Qed.

Lemma js_or_bytes a b :
  0 <= a <= 255 -> 0 <= b <= 255 ->
  0 <= js_or (Num a) (Num b) <= 255
  /\ 0 <= js_and (Num a) (Num b) <= 255
  /\ 0 <= js_xor (Num a) (Num b) <= 255.
Proof.
  intros Ha Hb. unfold js_or, js_and, js_xor. simpl.
  rewrite !wrap32_small by lia.
  destruct (byte_pair_ops a b Ha Hb) as (_ & ? & ? & ?). done.
Qed.

Lemma js_shl1 a : 0 <= a <= 255 -> js_shl (Num a) 1 = 2 * a.
Proof.
  intros Ha. unfold js_shl. simpl. rewrite (wrap32_small a) by lia.
  rewrite Z.shiftl_mul_pow2 by lia. rewrite wrap32_small by lia. lia.
Qed.

Lemma js_shr1 a : 0 <= a <= 255 -> js_shr (Num a) 1 = a / 2.
Proof.
  intros Ha. unfold js_shr. simpl. rewrite (wrap32_small a) by lia.
  by rewrite Z.shiftr_div_pow2 by lia.
Qed.

(** Reads the registers through a chain of register writes and decides
    the comparisons met on the way. *)
Ltac regs_step :=
  repeat first
    [ rewrite getV_setV
    | match goal with
      | |- context [decide (?a = ?b)] => destruct (decide (a = b)); [subst |]
      | H : getV ?s ?k = _ |- context [getV ?s ?k] => rewrite H
      | |- context [?a <? ?b] => destruct (Z.ltb_spec a b)
      end
    | progress cbn [js_add js_sub js_gt js_lt ToNumber of_bool] ].

Ltac byte_regs s x zx Hx Hzx :=
  let H := fresh in
  assert (exists z, getV s x = Num z /\ 0 <= z <= 255) as H
      by (apply is_byte_inv; auto with zarith);
  destruct H as (zx & Hx & Hzx).

Lemma regs_ok_op_ADD_byte x b s :
  0 <= x < 16 -> 0 <= b <= 255 -> regs_ok s -> regs_ok (op_ADD_byte x b s).
Proof.
  intros Hx Hb Hs k Hk.
  byte_regs s x zx Ex Hzx. byte_regs s k zk Ek Hzk.
  unfold op_ADD_byte, fold_high. regs_step; apply is_byte_Num; lia.
Qed.

(** Bounds the bitwise results that occur in a goal about bytes. *)
Ltac bits_step :=
  match goal with
  | |- context [js_or (Num ?a) (Num ?b)] =>
      let w := fresh "w" in
      destruct (js_or_bytes a b ltac:(lia) ltac:(lia)) as (? & _ & _);
      set (w := js_or (Num a) (Num b)) in *; clearbody w
  | |- context [js_and (Num ?a) (Num ?b)] =>
      let w := fresh "w" in
      destruct (js_or_bytes a b ltac:(lia) ltac:(lia)) as (_ & ? & _);
      set (w := js_and (Num a) (Num b)) in *; clearbody w
  | |- context [js_xor (Num ?a) (Num ?b)] =>
      let w := fresh "w" in
      destruct (js_or_bytes a b ltac:(lia) ltac:(lia)) as (_ & _ & ?);
      set (w := js_xor (Num a) (Num b)) in *; clearbody w
  | |- context [js_shl (Num ?a) 1] => rewrite (js_shl1 a) in * by lia
  | |- context [js_shr (Num ?a) 1] => rewrite (js_shr1 a) in * by lia
  end.

Ltac byte_arith :=
  apply is_byte_Num; repeat bits_step; (lia || (Z.div_mod_to_equations; lia)).

Lemma regs_ok_exec_8 op x y s :
  0 <= x < 16 -> 0 <= y < 16 -> regs_ok s -> regs_ok (exec_8 op x y s).
Proof.
  intros Hx Hy Hs k Hk.
  byte_regs s x zx Ex Hzx. byte_regs s y zy Ey Hzy.
  byte_regs s k zk Ek Hzk. byte_regs s 15 zf Ef Hzf.
  unfold exec_8.
  repeat match goal with
         | |- context [Z.land op 15 =? ?c] => destruct (Z.land op 15 =? c)
         end;
    unfold op_ADD, op_SUB, op_SHR, op_SUBN, op_SHL, fold_high, fold_low;
    regs_step; byte_arith.
Qed.

Lemma land_byte A b : 0 <= b <= 255 -> 0 <= Z.land A b <= 255.
Proof.
  intros Hb.
  assert (Z.land b (Z.ones 8) = b) as Hones.
  { rewrite Z.land_ones by lia. apply Z.mod_small. change (2 ^ 8) with 256. lia. }
  rewrite <- Hones, Z.land_assoc, Z.land_ones by lia.
  change (2 ^ 8) with 256. Z.div_mod_to_equations. lia.
Qed.

Lemma regs_ok_op_RND h x b s : 0 <= b <= 255 -> regs_ok s -> regs_ok (op_RND h x b s).
Proof.
  intros Hb Hs. unfold op_RND. apply regs_ok_setV; [done |].
  apply is_byte_Num. by apply land_byte.
Qed.

Lemma for_upto_invariant_idx {A : Type} (P : A -> Prop) (body : Z -> A -> A) n k a :
  (forall j y, k <= j < k + Z.of_nat n -> P y -> P (body j y)) ->
  P a -> P (for_upto n k body a).
Proof.
  revert k a. induction n as [|n IH]; intros k a Hbody Ha; simpl; [done |].
  apply IH.
  - intros j y Hj. apply Hbody. lia.
  - apply Hbody; [lia | done].
Qed.

Lemma v_set_requestRender s b : v (set_requestRender s b) = v s.
Proof. reflexivity. Qed.

Lemma regs_ok_draw_pixel vx vy cy cx s : regs_ok s -> regs_ok (draw_pixel vx vy cy cx s).
Proof.
  intros Hs. unfold draw_pixel. destruct (setPixel _ _ _) as [[] d].
  - apply regs_ok_setV; [| done]. by apply (regs_ok_same_v s).
  - by apply (regs_ok_same_v s).
Qed.

Lemma regs_ok_draw_row vx vy cy s : regs_ok s -> regs_ok (draw_row vx vy cy s).
Proof.
  intros Hs. unfold draw_row.
  eapply regs_ok_same_v; [apply v_set_requestRender |].
  apply (for_upto_invariant (fun a => regs_ok (snd a))); [| done].
  intros j [spr s1] H. unfold draw_col. cbn [snd] in *.
  destruct (0 <? _); [by apply regs_ok_draw_pixel | done].
Qed.

Lemma regs_ok_op_DRW x y n s : regs_ok s -> regs_ok (op_DRW x y n s).
Proof.
  intros Hs. unfold op_DRW.
  apply (for_upto_invariant regs_ok).
  - intros j s1 H. by apply regs_ok_draw_row.
  - by apply regs_ok_setV.
Qed.

Lemma v_bcd_loop h n w s : v (bcd_loop h n w s) = v s.
Proof.
  revert w s. induction n as [|n IH]; intros w s; simpl; [done |].
  by rewrite IH.
Qed.

Lemma load_byte_in_range s a :
  0 <= a < Z.of_nat (length (memory s)) -> is_byte (load_byte s (Num a)) = true.
Proof.
  intros Ha. unfold load_byte, mem_get.
  destruct (Z.leb_spec 0 a); [| lia].
  destruct (memory s !! Z.to_nat a) as [b|] eqn:E.
  - simpl from_option. apply is_byte_Num, Z_of_byte_range.
  - apply lookup_ge_None in E. lia.
Qed.

Lemma regs_ok_op_LD_Vx_I x s a :
  i s = Num a -> 0 <= a -> a + x < Z.of_nat (length (memory s)) ->
  regs_ok s -> regs_ok (op_LD_Vx_I x s).
Proof.
  intros Hi Ha Hax Hs. unfold op_LD_Vx_I.
  apply (for_upto_invariant_idx
           (fun s1 => regs_ok s1 /\ i s1 = i s /\ memory s1 = memory s)); [| done].
  intros j s1 Hj (H1 & Hi1 & Hm1).
  split; [| done].
  apply regs_ok_setV; [done |].
  rewrite Hi1, Hi. cbn [js_add ToNumber].
  apply load_byte_in_range. rewrite Hm1. lia.
Qed.

Lemma regs_ok_exec_F h op x s :
  regs_ok s -> is_byte (dt s) = true ->
  (Z.land op 0xFF = 0x65 ->
   exists a, i s = Num a /\ 0 <= a /\ a + x < Z.of_nat (length (memory s))) ->
  regs_ok (exec_F h op x s).
Proof.
  intros Hs Hdt Hload. unfold exec_F.
  destruct (Z.land op 255 =? 7); [by apply regs_ok_setV |].
  destruct (Z.land op 255 =? 10); [done |].
  destruct (Z.land op 255 =? 21); [by apply (regs_ok_same_v s) |].
  destruct (Z.land op 255 =? 24); [by apply (regs_ok_same_v s) |].
  destruct (Z.land op 255 =? 30); [by apply (regs_ok_same_v s) |].
  destruct (Z.land op 255 =? 41); [by apply (regs_ok_same_v s) |].
  destruct (Z.land op 255 =? 51).
  { apply (regs_ok_same_v s); [| done]. apply v_bcd_loop. }
  destruct (Z.land op 255 =? 85).
  { apply (regs_ok_same_v s); [| done]. unfold op_LD_I_Vx.
    apply (for_upto_invariant (fun s1 => v s1 = v s)); [| done]. by intros j s1 H. }
  destruct (Z.eqb_spec (Z.land op 255) 101) as [E|]; [| done].
  destruct (Hload E) as (a & Hi & Ha & Hax). by apply (regs_ok_op_LD_Vx_I x s a).
Qed.

Lemma fx65_path op :
  0 <= op < 65536 ->
  Z.land op 0xF000 = 0xF000 -> Z.land op 0xFF = 0x65 -> Z.land op 0xF0FF = 0xF065.
Proof.
  intros Hop Htop Hlow.
  assert (fx65_check op = true) as H.
  { apply (forall_below fx65_check 65536); [by vm_compute | lia]. }
  unfold fx65_check in H. rewrite Htop, Hlow in H. simpl in H.
  destruct (Z.eqb_spec (Z.land op 61695) 61541); done.
Qed.

(** From registers and delay timer in [0, 255], one cycle that is not an
    [Fx65] reading outside memory leaves every register in [0, 255]. *)
Lemma regs_in_range_preserved h s :
  length (memory s) = 4096%nat ->
  regs_in_range s = true ->
  is_byte (dt s) = true ->
  block_load_outside s = false ->
  regs_in_range (final (runCycle h s)) = true.
Proof.
  intros Hlen Hregs Hdt Hblock.
  apply regs_in_range_spec. apply regs_in_range_spec in Hregs.
  unfold block_load_outside in Hblock. unfold runCycle.
  pose proof (fetch_range s) as Hop. revert Hblock Hop.
  generalize (fetch s) as op. intros op Hblock Hop.
  destruct (decode_fields op Hop) as (_ & _ & Hx & Hy & Hb & _).
  assert (0 <= Z.shiftr (Z.land op 0xF00) 8 < 16) as Hxr
      by (rewrite Hx; Z.div_mod_to_equations; lia).
  assert (0 <= Z.shiftr (Z.land op 0xF0) 4 < 16) as Hyr
      by (rewrite Hy; Z.div_mod_to_equations; lia).
  assert (0 <= Z.land op 0xFF <= 255) as Hbr
      by (rewrite Hb; Z.div_mod_to_equations; lia).
  assert (regs_ok (set_pc s (js_add (pc s) (Num 2)))) as Hs1
      by (by apply (regs_ok_same_v s)).
  unfold dispatch.
  destruct (Z.land op 0xF000 =? 0).
  { cbn [final]. unfold exec_0.
    destruct (op =? 0xE0); [by apply (regs_ok_same_v s) |].
    destruct (op =? 0xEE); [by apply (regs_ok_same_v s) | done]. }
  destruct (Z.land op 0xF000 =? 0x1000); [by apply (regs_ok_same_v s) |].
  destruct (Z.land op 0xF000 =? 0x2000); [by apply (regs_ok_same_v s) |].
  destruct (Z.land op 0xF000 =? 0x3000); [by apply regs_ok_skip_if |].
  destruct (Z.land op 0xF000 =? 0x4000); [by apply regs_ok_skip_if |].
  destruct (Z.land op 0xF000 =? 0x5000); [by apply regs_ok_skip_if |].
  destruct (Z.land op 0xF000 =? 0x6000).
  { apply regs_ok_setV; [done | by apply is_byte_Num]. }
  destruct (Z.land op 0xF000 =? 0x7000); [by apply regs_ok_op_ADD_byte |].
  destruct (Z.land op 0xF000 =? 0x8000); [by apply regs_ok_exec_8 |].
  destruct (Z.land op 0xF000 =? 0x9000); [by apply regs_ok_skip_if |].
  destruct (Z.land op 0xF000 =? 0xA000); [by apply (regs_ok_same_v s) |].
  destruct (Z.land op 0xF000 =? 0xB000); [by apply (regs_ok_same_v s) |].
  destruct (Z.land op 0xF000 =? 0xC000); [by apply regs_ok_op_RND |].
  destruct (Z.land op 0xF000 =? 0xD000); [by apply regs_ok_op_DRW |].
  destruct (Z.land op 0xF000 =? 0xE000).
  { cbn [final]. unfold exec_E. by repeat destruct (_ =? _). }
  destruct (Z.eqb_spec (Z.land op 0xF000) 0xF000) as [Etop |]; [| done].
  cbn [final]. apply regs_ok_exec_F; [done | done |].
  intros Elow. rewrite (fx65_path op Hop Etop Elow) in Hblock.
  simpl in Hblock. apply negb_false_iff in Hblock.
  cbn [i set_pc memory]. rewrite Hlen.
  destruct (i s) as [| |a]; try done.
  apply andb_prop in Hblock as [H1 H2].
  apply Z.leb_le in H1. apply Z.ltb_lt in H2.
  exists a. split; [done |]. lia.
Qed.

Lemma xkk_fields t x kk :
  0 <= t < 16 -> 0 <= x < 16 -> 0 <= kk < 256 ->
  let op := 4096 * t + 256 * x + kk in
  Z.land op 0xF000 = 4096 * t
  /\ Z.shiftr (Z.land op 0xF00) 8 = x
  /\ Z.land op 0xFF = kk.
Proof.
  intros Ht Hx Hk op.
  destruct (decode_fields op) as (-> & _ & -> & _ & -> & _); [unfold op; lia |].
  unfold op. repeat split; Z.div_mod_to_equations; lia.
Qed.

Lemma getV_set_pc s a k : getV (set_pc s a) k = getV s k.
Proof. reflexivity. Qed.

(** [ADD Vx, kk] stores the sum modulo 256. *)
Lemma add_byte_result h s x kk zx :
  0 <= x < 16 -> 0 <= kk < 256 ->
  fetch s = 0x7000 + 256 * x + kk ->
  getV s x = Num zx -> 0 <= zx <= 255 ->
  getV (final (runCycle h s)) x = Num ((zx + kk) mod 256).
Proof.
  intros Hx Hk Hf Ex Hzx. unfold runCycle. rewrite Hf.
  change (0x7000 + 256 * x + kk) with (4096 * 7 + 256 * x + kk).
  unfold dispatch.
  destruct (xkk_fields 7 x kk) as (-> & -> & ->); [lia | lia | lia |].
  simpl (_ =? _). cbv iota. cbn [final].
  unfold op_ADD_byte, fold_high. rewrite ?getV_setV, ?getV_set_pc.
  regs_step; rewrite ?getV_set_pc, ?Ex; f_equal; Z.div_mod_to_equations; lia.
Qed.

(** The two-register arithmetic instructions store their result modulo 256
    in [V[x]], as long as the flag register is not itself an operand whose
    value the flag write replaces first. *)
Lemma alu_results h s x y zx zy :
  0 <= x < 15 -> 0 <= y < 16 ->
  getV s x = Num zx -> 0 <= zx <= 255 ->
  getV s y = Num zy -> 0 <= zy <= 255 ->
  (fetch s = 0x8004 + 256 * x + 16 * y ->
   getV (final (runCycle h s)) x = Num ((zx + zy) mod 256))
  /\ (fetch s = 0x800E + 256 * x + 16 * y ->
      getV (final (runCycle h s)) x = Num ((2 * zx) mod 256))
  /\ (y <> 0xF ->
      (fetch s = 0x8005 + 256 * x + 16 * y ->
       getV (final (runCycle h s)) x = Num ((zx - zy) mod 256))
      /\ (fetch s = 0x8007 + 256 * x + 16 * y ->
          getV (final (runCycle h s)) x = Num ((zy - zx) mod 256))).
Proof.
  intros Hx Hy Ex Hzx Ey Hzy.
  assert (x = y -> zx = zy) as Hxy by (intros ->; congruence).
  assert (Ex' : getV (set_pc s (js_add (pc s) (Num 2))) x = Num zx) by done.
  assert (Ey' : getV (set_pc s (js_add (pc s) (Num 2))) y = Num zy) by done.
  split; [| split; [| intros HyF; split]]; intros Hf; unfold runCycle; rewrite Hf.
  - replace (0x8004 + 256 * x + 16 * y) with (4096 * 8 + 256 * x + 16 * y + 4) by lia.
    decode_nibbles 8 x y 4. cbv iota. cbn [final].
    unfold op_ADD, fold_high.
    regs_step; try lia; f_equal; try (specialize (Hxy eq_refl)); Z.div_mod_to_equations; lia.
  - replace (0x800E + 256 * x + 16 * y) with (4096 * 8 + 256 * x + 16 * y + 14) by lia.
    decode_nibbles 8 x y 14. cbv iota. cbn [final].
    unfold op_SHL, fold_high.
    regs_step; try lia; rewrite ?js_shl1 in * by lia; try lia;
      f_equal; Z.div_mod_to_equations; lia.
  - replace (0x8005 + 256 * x + 16 * y) with (4096 * 8 + 256 * x + 16 * y + 5) by lia.
    decode_nibbles 8 x y 5. cbv iota. cbn [final].
    unfold op_SUB, fold_low.
    regs_step; try lia; f_equal; try (specialize (Hxy eq_refl)); Z.div_mod_to_equations; lia.
  - replace (0x8007 + 256 * x + 16 * y) with (4096 * 8 + 256 * x + 16 * y + 7) by lia.
    decode_nibbles 8 x y 7. cbv iota. cbn [final].
    unfold op_SUBN, fold_low.
    regs_step; try lia; f_equal; try (specialize (Hxy eq_refl)); Z.div_mod_to_equations; lia.
Qed.

(** C7, as amended: from a state whose sixteen registers and delay timer
    hold values in [0, 255], any single cycle other than an [Fx65] that
    reads a byte outside memory leaves every register in [0, 255];
    [ADD Vx, kk] stores the sum modulo 256, and with [x] other than 0xF
    (and, for [SUB] and [SUBN], [y] other than 0xF) [ADD Vx, Vy], [SHL],
    [SUB] and [SUBN] store their result modulo 256 in [V[x]]. *)
Theorem registers_stay_bytes h s :
  length (memory s) = 4096%nat ->
  regs_in_range s = true ->
  is_byte (dt s) = true ->
  block_load_outside s = false ->
  regs_in_range (final (runCycle h s)) = true
  /\ (forall x kk zx,
        0 <= x < 16 -> 0 <= kk < 256 ->
        fetch s = 0x7000 + 256 * x + kk -> getV s x = Num zx ->
        getV (final (runCycle h s)) x = Num ((zx + kk) mod 256))
  /\ (forall x y zx zy,
        0 <= x < 15 -> 0 <= y < 16 ->
        getV s x = Num zx -> getV s y = Num zy ->
        (fetch s = 0x8004 + 256 * x + 16 * y ->
         getV (final (runCycle h s)) x = Num ((zx + zy) mod 256))
        /\ (fetch s = 0x800E + 256 * x + 16 * y ->
            getV (final (runCycle h s)) x = Num ((2 * zx) mod 256))
        /\ (y <> 0xF ->
            (fetch s = 0x8005 + 256 * x + 16 * y ->
             getV (final (runCycle h s)) x = Num ((zx - zy) mod 256))
            /\ (fetch s = 0x8007 + 256 * x + 16 * y ->
                getV (final (runCycle h s)) x = Num ((zy - zx) mod 256)))).
Proof.
  intros Hlen Hregs Hdt Hblock.
  split; [by apply regs_in_range_preserved |].
  pose proof (proj1 (regs_in_range_spec s) Hregs) as Hok.
  assert (forall k z, 0 <= k < 16 -> getV s k = Num z -> 0 <= z <= 255) as Hbyte.
  { intros k z Hk E. apply is_byte_Num. rewrite <- E. by apply Hok. }
  split.
  - intros x kk zx Hx Hkk Hf Ex. apply add_byte_result; eauto.
  - intros x y zx zy Hx Hy Ex Ey.
    apply alu_results; eauto. apply (Hbyte x); [lia | done].
Qed.

Lemma registers_stay_bytes_witness :
  let s := final (run [host0] (boot [0x60; 0xFF; 0x70; 0x03])) in
  regs_in_range (final (runCycle host0 s)) = true
  /\ getV (final (runCycle host0 s)) 0 = Num 2.
Proof.
  intros s.
  destruct (registers_stay_bytes host0 s) as (Hrange & Hadd & _).
  - by vm_compute.
  - by vm_compute.
  - by vm_compute.
  - by vm_compute.
  - split; [exact Hrange |].
    apply (Hadd 0 3 255); [lia | lia | by vm_compute | by vm_compute].
Defined.

(** C7, as stated, fails.  [Fx65] with [I + x] past the end of memory
    loads [undefined] into a register; [LD Vx, DT] copies a delay timer
    that such a register was stored into; and with [x = 0xF] or [y = 0xF]
    the flag write replaces an operand or the result. *)
Lemma registers_leave_range :
  (let s := final (run [host0] (boot [0xAF; 0xFF; 0xF1; 0x65])) in
   regs_in_range s = true /\ fetch s = 0xF165
   /\ getV (final (runCycle host0 s)) 1 = Undefined)
  /\ (let s := final (run [host0; host0; host0; host0]
                        (boot [0xAF; 0xFF; 0xF1; 0x65; 0xF1; 0x15; 0x61; 0x00; 0xF0; 0x07])) in
      regs_in_range s = true /\ fetch s = 0xF007
      /\ getV (final (runCycle host0 s)) 0 = Undefined)
  /\ (let s := final (run [host0; host0] (boot [0x6F; 0xC8; 0x60; 0x64; 0x8F; 0x04])) in
      getV s 0xF = Num 200 /\ getV s 0 = Num 100 /\ fetch s = 0x8F04
      /\ getV (final (runCycle host0 s)) 0xF = Num 1)
  /\ (let s := final (run [host0; host0] (boot [0x6F; 0x05; 0x60; 0x0A; 0x80; 0xF5])) in
      getV s 0 = Num 10 /\ getV s 0xF = Num 5 /\ fetch s = 0x80F5
      /\ getV (final (runCycle host0 s)) 0 = Num 9).
Proof. by vm_compute. Qed.

(** ** Toggling pixels *)

Lemma wrap32_range z : - 2 ^ 31 <= wrap32 z < 2 ^ 31.
Proof. unfold wrap32. pose proof (Z.mod_pos_bound (z + 2 ^ 31) (2 ^ 32)). lia. Qed.

Lemma lxor_1 w : Z.lxor w 1 = w + 1 - 2 * (w mod 2).
Proof.
  pose proof (Z.add_lxor_2land w 1) as H.
  change 1 with (Z.ones 1) in H at 2. rewrite Z.land_ones in H by lia.
  change (2 ^ 1) with 2 in H. lia.
Qed.

Lemma js_xor_1 a : js_xor a (Num 1) = Z.lxor (ToInt32 a) 1.
Proof. reflexivity. Qed.

(** Flipping the low bit twice gives the cell's 32-bit integer value back. *)
Lemma flip_flip a : js_xor (Num (js_xor a (Num 1))) (Num 1) = ToInt32 a.
Proof.
  rewrite !js_xor_1. cbn [ToInt32].
  pose proof (wrap32_range 0) as _.
  assert (- 2 ^ 31 <= ToInt32 a < 2 ^ 31) as Hr.
  { destruct a; simpl; try lia. apply wrap32_range. }
  rewrite wrap32_small.
  - rewrite Z.lxor_assoc. change (Z.lxor 1 1) with 0. apply Z.lxor_0_r.
  - rewrite lxor_1. Z.div_mod_to_equations. lia.
Qed.

Lemma arr_get_set d k j x :
  arr_get (arr_set d k x) j = if decide (k = j) then x else arr_get d j.
Proof. unfold arr_get, arr_set. rewrite lookup_insert. by destruct (decide (k = j)). Qed.

Lemma toggle_eq k d :
  toggle k d
  = (js_xor (arr_get d k) (Num 1) =? 0, arr_set d k (Num (js_xor (arr_get d k) (Num 1)))).
Proof.
  unfold toggle. rewrite arr_get_set. destruct (decide (k = k)); [reflexivity | done].
Qed.

Lemma existsb_ext_in {A : Type} (f g : A -> bool) (l : list A) :
  (forall a, In a l -> f a = g a) -> existsb f l = existsb g l.
Proof.
  induction l as [|a l IH]; intros H; simpl; [done |].
  rewrite (H a) by (by left). rewrite IH; [done |]. intros b Hb. apply H. by right.
Qed.

Lemma toggle_all_cons k ks f d :
  toggle_all (k :: ks) (f, d)
  = toggle_all ks (f || (js_xor (arr_get d k) (Num 1) =? 0),
                   arr_set d k (Num (js_xor (arr_get d k) (Num 1)))).
Proof. unfold toggle_all. cbn [foldl]. by rewrite toggle_eq. Qed.

Lemma toggle_all_app ks1 ks2 a :
  toggle_all (ks1 ++ ks2) a = toggle_all ks2 (toggle_all ks1 a).
Proof. unfold toggle_all. apply foldl_app. Qed.

(** Toggling distinct keys: each toggle sees the cell as it was before the
    draw started. *)
Lemma toggle_all_nodup ks f d :
  NoDup ks ->
  fst (toggle_all ks (f, d))
  = f || existsb (fun k => js_xor (arr_get d k) (Num 1) =? 0) ks
  /\ forall k, arr_get (snd (toggle_all ks (f, d))) k
               = if decide (k ∈ ks) then Num (js_xor (arr_get d k) (Num 1)) else arr_get d k.
Proof.
  revert f d. induction ks as [|k0 ks IH]; intros f d Hnd.
  { simpl. split; [by rewrite orb_false_r |]. intros k.
    destruct (decide (k ∈ [])) as [Hin |]; [by apply elem_of_nil in Hin | done]. }
  apply NoDup_cons in Hnd as [Hk0 Hnd].
  rewrite toggle_all_cons.
  destruct (IH (f || (js_xor (arr_get d k0) (Num 1) =? 0))
               (arr_set d k0 (Num (js_xor (arr_get d k0) (Num 1)))) Hnd) as [Hf Hd].
  split.
  - rewrite Hf. cbn [existsb]. rewrite <- orb_assoc. f_equal. f_equal.
    apply existsb_ext_in. intros k Hk. rewrite arr_get_set.
    destruct (decide (k0 = k)) as [-> |]; [| done].
    exfalso. apply Hk0. by apply list_elem_of_In.
  - intros k. rewrite Hd. rewrite !arr_get_set.
    destruct (decide (k0 = k)) as [-> | Hne].
    + destruct (decide (k ∈ ks)); [done |].
      destruct (decide (k ∈ k :: ks)) as [| Hn]; [done |].
      exfalso. apply Hn. left.
    + destruct (decide (k ∈ ks)) as [Hin | Hnin];
        destruct (decide (k ∈ k0 :: ks)) as [Hin' | Hnin']; try done.
      * exfalso. apply Hnin'. by right.
      * apply elem_of_cons in Hin' as [-> | ?]; done.
Qed.

(** Toggling the same distinct keys twice: the second pass reports an
    erased pixel exactly when one of the cells was unlit at the start, and
    every toggled cell ends with its starting value as a 32-bit integer. *)
Lemma toggle_all_twice ks f1 f2 d :
  NoDup ks ->
  fst (toggle_all ks (f2, snd (toggle_all ks (f1, d)))) = f2 || existsb (unlit d) ks
  /\ forall k, arr_get (snd (toggle_all ks (f2, snd (toggle_all ks (f1, d))))) k
               = if decide (k ∈ ks) then Num (ToInt32 (arr_get d k)) else arr_get d k.
Proof.
  intros Hnd.
  destruct (toggle_all_nodup ks f1 d Hnd) as [_ Hd1].
  destruct (toggle_all_nodup ks f2 (snd (toggle_all ks (f1, d))) Hnd) as [Hf2 Hd2].
  split.
  - rewrite Hf2. f_equal. apply existsb_ext_in. intros k Hk.
    rewrite Hd1. destruct (decide (k ∈ ks)) as [| Hn].
    + by rewrite flip_flip.
    + exfalso. apply Hn. by apply list_elem_of_In.
  - intros k. rewrite Hd2, Hd1. destruct (decide (k ∈ ks)); [| done].
    by rewrite flip_flip.
Qed.

(** ** DRW as a sequence of toggles *)

Lemma drawing_draw_pixel s s1 a vx vy cy cx :
  drawing s s1 a ->
  drawing s (draw_pixel vx vy cy cx s1) (toggle_all [sprite_key vx vy cy cx] a).
Proof.
  destruct a as [f d]. intros (Hd & Hv & Hm & Hi). cbn [fst snd] in *.
  rewrite toggle_all_cons. unfold toggle_all at 1. cbn [foldl].
  unfold draw_pixel.
  change (setPixel (js_add vx (Num cx)) (js_add vy (Num cy)) (display s1))
    with (toggle (sprite_key vx vy cy cx) (display s1)).
  rewrite toggle_eq, Hd.
  destruct (js_xor (arr_get d (sprite_key vx vy cy cx)) (Num 1) =? 0);
    unfold drawing; cbn [fst snd display v memory i setV set_v set_display].
  - rewrite orb_true_r. repeat split; try done.
    rewrite Hv. destruct f; [| done]. unfold arr_set. by rewrite insert_insert_eq.
  - rewrite orb_false_r. done.
Qed.

Lemma drawing_cols s vx vy cy n :
  forall cx spr s1 a,
    drawing s s1 a ->
    drawing s (snd (for_upto n cx (draw_col vx vy cy) (spr, s1)))
            (toggle_all (row_keys vx vy cy n cx spr) a).
Proof.
  induction n as [|n IH]; intros cx spr s1 a H; [done |].
  cbn [for_upto row_keys]. rewrite toggle_all_app.
  unfold draw_col at 2.
  apply IH.
  destruct (0 <? js_and spr (Num 128)); [by apply drawing_draw_pixel | done].
Qed.

Lemma drawing_set_requestRender s s1 a b :
  drawing s s1 a -> drawing s (set_requestRender s1 b) a.
Proof. done. Qed.

Lemma drawing_row s vx vy cy s1 a :
  drawing s s1 a ->
  drawing s (draw_row vx vy cy s1)
          (toggle_all (row_keys vx vy cy 8 0 (load_byte s (js_add (i s) (Num cy)))) a).
Proof.
  intros H. unfold draw_row. apply drawing_set_requestRender.
  destruct H as (Hd & Hv & Hm & Hi) eqn:E. clear E.
  unfold load_byte. rewrite Hm, Hi.
  apply drawing_cols. done.
Qed.

Lemma drawing_rows s vx vy n :
  forall cy s1 a,
    drawing s s1 a ->
    drawing s (for_upto n cy (draw_row vx vy) s1) (toggle_all (rows_keys s vx vy n cy) a).
Proof.
  induction n as [|n IH]; intros cy s1 a H; [done |].
  cbn [for_upto rows_keys]. rewrite toggle_all_app.
  apply IH. by apply drawing_row.
Qed.

(** What [DRW] leaves: the display and flag obtained by toggling the keys
    of the sprite in order, from a cleared flag. *)
Lemma op_DRW_drawing x y n s :
  drawing s (op_DRW x y n s)
          (toggle_all (sprite_keys s (drawn_at s x) (drawn_at s y) n) (false, display s)).
Proof.
  unfold op_DRW, sprite_keys, drawn_at. apply drawing_rows. done.
Qed.

Lemma rows_keys_ext s s' vx vy n cy :
  memory s' = memory s -> i s' = i s -> rows_keys s' vx vy n cy = rows_keys s vx vy n cy.
Proof.
  intros Hm Hi. revert cy. induction n as [|n IH]; intros cy; [done |].
  cbn [rows_keys]. unfold load_byte. by rewrite Hm, Hi, IH.
Qed.

(** ** The keys of a sprite drawn inside the screen are distinct *)

Lemma wrap_coord_int c d : wrap_coord (Num c) d = Num (wrap_int c d).
Proof.
  unfold wrap_coord, wrap_int. cbn [js_gt js_lt js_sub js_add ToNumber].
  destruct (d <? c); [done |]. by destruct (c <? 0).
Qed.

Lemma sprite_key_int px py cy cx :
  sprite_key (Num px) (Num py) cy cx = Idx (location (px + cx) (py + cy)).
Proof.
  unfold sprite_key, pixel_location. cbn [js_add ToNumber].
  rewrite !wrap_coord_int. reflexivity.
Qed.

Lemma location_inj px py cx cy cx' cy' :
  0 <= px < 64 -> 0 <= py < 32 ->
  0 <= cx < 8 -> 0 <= cx' < 8 -> 0 <= cy < 16 -> 0 <= cy' < 16 ->
  location (px + cx) (py + cy) = location (px + cx') (py + cy') ->
  cx = cx' /\ cy = cy'.
Proof.
  intros Hpx Hpy Hcx Hcx' Hcy Hcy'. unfold location, wrap_int.
  repeat match goal with
         | |- context [?a <? ?b] => destruct (Z.ltb_spec a b)
         end; lia.
Qed.

Lemma row_keys_elem px py cy n cx spr k :
  k ∈ row_keys (Num px) (Num py) cy n cx spr ->
  exists c, cx <= c < cx + Z.of_nat n /\ k = Idx (location (px + c) (py + cy)).
Proof.
  revert cx spr. induction n as [|n IH]; intros cx spr Hk.
  { by apply elem_of_nil in Hk. }
  cbn [row_keys] in Hk. apply elem_of_app in Hk as [Hk | Hk].
  - destruct (0 <? js_and spr (Num 128)); [| by apply elem_of_nil in Hk].
    apply list_elem_of_singleton in Hk. subst k.
    exists cx. split; [lia | apply sprite_key_int].
  - destruct (IH _ _ Hk) as (c & Hc & ->). exists c. split; [lia | done].
Qed.

Lemma row_keys_nodup px py cy n cx spr :
  0 <= px < 64 -> 0 <= py < 32 -> 0 <= cy < 16 ->
  0 <= cx -> cx + Z.of_nat n <= 8 ->
  NoDup (row_keys (Num px) (Num py) cy n cx spr).
Proof.
  intros Hpx Hpy Hcy. revert cx spr.
  induction n as [|n IH]; intros cx spr Hcx Hn; [apply NoDup_nil_2 |].
  cbn [row_keys]. apply NoDup_app. split; [| split].
  - destruct (0 <? _); [apply NoDup_singleton | apply NoDup_nil_2].
  - intros k Hk Hk'.
    destruct (0 <? _); [| by apply elem_of_nil in Hk].
    apply list_elem_of_singleton in Hk. subst k.
    apply row_keys_elem in Hk' as (c & Hc & E).
    rewrite sprite_key_int in E. injection E as E.
    apply location_inj in E; lia.
  - apply IH; lia.
Qed.

Lemma rows_keys_elem s px py n cy k :
  k ∈ rows_keys s (Num px) (Num py) n cy ->
  exists r c, cy <= r < cy + Z.of_nat n /\ 0 <= c < 8
              /\ k = Idx (location (px + c) (py + r)).
Proof.
  revert cy. induction n as [|n IH]; intros cy Hk.
  { by apply elem_of_nil in Hk. }
  cbn [rows_keys] in Hk. apply elem_of_app in Hk as [Hk | Hk].
  - apply row_keys_elem in Hk as (c & Hc & ->).
    exists cy, c. split; [lia | split; [lia | done]].
  - destruct (IH _ Hk) as (r & c & Hr & Hc & ->).
    exists r, c. split; [lia | done].
Qed.

Lemma rows_keys_nodup s px py n cy :
  0 <= px < 64 -> 0 <= py < 32 ->
  0 <= cy -> cy + Z.of_nat n <= 16 ->
  NoDup (rows_keys s (Num px) (Num py) n cy).
Proof.
  intros Hpx Hpy. revert cy.
  induction n as [|n IH]; intros cy Hcy Hn; [apply NoDup_nil_2 |].
  cbn [rows_keys]. apply NoDup_app. split; [| split].
  - apply row_keys_nodup; lia.
  - intros k Hk Hk'.
    apply row_keys_elem in Hk as (c & Hc & ->).
    apply rows_keys_elem in Hk' as (r' & c' & Hr' & Hc' & E).
    injection E as E. apply location_inj in E; lia.
  - apply IH; lia.
Qed.


(** ** Drawing the same sprite twice *)

Lemma runCycle_DRW h s x y n :
  0 <= x < 16 -> 0 <= y < 16 -> 0 <= n < 16 ->
  fetch s = 0xD000 + 256 * x + 16 * y + n ->
  runCycle h s = Normal (op_DRW x y n (set_pc s (js_add (pc s) (Num 2)))).
Proof.
  intros Hx Hy Hn Hf. unfold runCycle. rewrite Hf.
  replace (0xD000 + 256 * x + 16 * y + n) with (4096 * 13 + 256 * x + 16 * y + n) by lia.
  decode_nibbles 13 x y n. reflexivity.
Qed.

Lemma drawn_at_spec s x :
  drawn_at s x = if decide (0xF = x) then Num 0 else arr_get (v s) (Idx x).
Proof. unfold drawn_at. by rewrite getV_setV. Qed.

Lemma drawn_at_drawing s s1 a x : drawing s s1 a -> drawn_at s1 x = drawn_at s x.
Proof.
  intros (_ & Hv & _ & _). rewrite !drawn_at_spec.
  destruct (decide (15 = x)) as [| Hne]; [done |].
  assert (forall (m : jsarray) b, arr_get (arr_set m (Idx 15) b) (Idx x) = arr_get m (Idx x)) as E.
  { intros m b. rewrite arr_get_set. destruct (decide (Idx 15 = Idx x)); congruence. }
  rewrite Hv. destruct (fst a); by rewrite !E.
Qed.

Lemma drawing_set_pc s s1 a b : drawing s s1 a -> drawing s (set_pc s1 b) a.
Proof. done. Qed.

Lemma drawing_trans s s1 s2 a b :
  drawing s s1 a -> drawing s1 s2 b ->
  display s2 = snd b
  /\ getV s2 0xF = Num (if fst b then 1 else 0)
  /\ memory s2 = memory s /\ i s2 = i s.
Proof.
  intros (_ & _ & Hm & Hi) (Hd2 & Hv2 & Hm2 & Hi2).
  split; [done |]. split; [| split; congruence].
  assert (forall (m : jsarray) c, arr_get (arr_set m (Idx 15) c) (Idx 15) = c) as E.
  { intros m c. rewrite arr_get_set. by destruct (decide (Idx 15 = Idx 15)). }
  unfold getV. rewrite Hv2. destruct (fst b); by rewrite E.
Qed.

Lemma pixels_binary_spec d k :
  pixels_binary d = true -> 0 <= k < 2048 ->
  arr_get d (Idx k) = Num 0 \/ arr_get d (Idx k) = Num 1.
Proof.
  unfold pixels_binary. rewrite forallb_forall. intros H Hk.
  specialize (H (Z.to_nat k)). rewrite Z2Nat.id in H by lia.
  assert (In (Z.to_nat k) (seq 0 2048)) as Hin by (apply in_seq; lia).
  specialize (H Hin). destruct (arr_get d (Idx k)) as [| |z]; try done.
  apply orb_prop in H as [E | E]; apply Z.eqb_eq in E; subst; auto.
Qed.

(** C5, as amended: drawing the same sprite twice at the same in-range
    position restores every pixel of the 64x32 buffer to its value before
    the first draw; the second draw sets [V[0xF]] to 1 when at least one
    set bit of the sprite landed on a pixel that was unlit before the
    first draw (as on a blank display), and to 0 when every such pixel was
    already lit. *)
Theorem draw_twice_restores h1 h2 s x y n px py :
  0 <= x < 16 -> 0 <= y < 16 -> 0 <= n < 16 ->
  fetch s = 0xD000 + 256 * x + 16 * y + n ->
  drawn_at s x = Num px -> 0 <= px < 64 ->
  drawn_at s y = Num py -> 0 <= py < 32 ->
  pixels_binary (display s) = true ->
  fetch (final (runCycle h1 s)) = fetch s ->
  (forall k, 0 <= k < 2048 ->
     arr_get (display (final (runCycle h2 (final (runCycle h1 s))))) (Idx k)
     = arr_get (display s) (Idx k))
  /\ getV (final (runCycle h2 (final (runCycle h1 s)))) 0xF
     = Num (if existsb (unlit (display s)) (sprite_keys s (Num px) (Num py) n)
            then 1 else 0).
Proof.
  intros Hx Hy Hn Hf Epx Hpx Epy Hpy Hbin.
  rewrite (runCycle_DRW h1 s x y n Hx Hy Hn Hf). cbn [final]. intros Hf1.
  rewrite Hf in Hf1.
  rewrite (runCycle_DRW h2 _ x y n Hx Hy Hn Hf1). cbn [final].
  set (s0 := set_pc s (js_add (pc s) (Num 2))).
  set (ks := sprite_keys s (Num px) (Num py) n).
  pose proof (op_DRW_drawing x y n s0) as D1.
  assert (sprite_keys s0 (drawn_at s0 x) (drawn_at s0 y) n = ks) as K0.
  { change (drawn_at s0 x) with (drawn_at s x). change (drawn_at s0 y) with (drawn_at s y).
    rewrite Epx, Epy. by apply rows_keys_ext. }
  rewrite K0 in D1. change (display s0) with (display s) in D1.
  set (S1 := op_DRW x y n s0) in *.
  set (S1' := set_pc S1 (js_add (pc S1) (Num 2))).
  assert (drawing s0 S1' (toggle_all ks (false, display s))) as D1'
      by (by apply drawing_set_pc).
  pose proof (op_DRW_drawing x y n S1') as D2.
  assert (sprite_keys S1' (drawn_at S1' x) (drawn_at S1' y) n = ks) as K1.
  { rewrite (drawn_at_drawing _ _ _ x D1'), (drawn_at_drawing _ _ _ y D1').
    change (drawn_at s0 x) with (drawn_at s x). change (drawn_at s0 y) with (drawn_at s y).
    rewrite Epx, Epy. destruct D1' as (_ & _ & Hm & Hi).
    by apply rows_keys_ext. }
  rewrite K1 in D2.
  assert (display S1' = snd (toggle_all ks (false, display s))) as E1
      by (by destruct D1' as (? & _)).
  rewrite E1 in D2.
  destruct (drawing_trans _ _ _ _ _ D1' D2) as (Hd2 & Hv2 & _).
  assert (NoDup ks) as Hnd by (apply rows_keys_nodup; lia).
  destruct (toggle_all_twice ks false false (display s) Hnd) as [Hflag Hcells].
  split.
  - intros k Hk. rewrite Hd2, Hcells.
    destruct (decide (Idx k ∈ ks)); [| done].
    by destruct (pixels_binary_spec _ k Hbin Hk) as [-> | ->].
  - rewrite Hv2, Hflag. done.
Qed.

Lemma draw_twice_restores_witness :
  let s := final (run [host0] (boot [0xA0; 0x00; 0xD0; 0x15; 0xD0; 0x15])) in
  arr_get (display (final (runCycle host0 (final (runCycle host0 s))))) (Idx 0)
  = arr_get (display s) (Idx 0)
  /\ getV (final (runCycle host0 (final (runCycle host0 s)))) 0xF = Num 1.
Proof.
  intros s.
  destruct (draw_twice_restores host0 host0 s 0 1 5 0 0) as [Hpix Hflag].
  - lia.
  - lia.
  - lia.
  - by vm_compute.
  - by vm_compute.
  - lia.
  - by vm_compute.
  - lia.
  - by vm_compute.
  - by vm_compute.
  - split; [apply Hpix; lia |].
    rewrite Hflag. by vm_compute.
Defined.

(** C5, as stated, fails: when the sprite is already on the screen, the
    first of two further draws erases it and the second, which lights it
    again, leaves [V[0xF]] at 0. *)
Lemma draw_twice_flag_clear :
  let s := final (run [host0; host0]
                    (boot [0xA0; 0x00; 0xD0; 0x15; 0xD0; 0x15; 0xD0; 0x15])) in
  fetch s = 0xD015
  /\ drawn_at s 0 = Num 0 /\ drawn_at s 1 = Num 0
  /\ load_byte s (i s) = Num 0xF0
  /\ fetch (final (runCycle host0 s)) = 0xD015
  /\ getV (final (runCycle host0 (final (runCycle host0 s)))) 0xF = Num 0.
Proof. by vm_compute. Qed.

(** * Further properties of the code *)

(** ** Which fields a cycle assigns *)

Lemma keeps_refl f s : keeps f s s.
Proof. by destruct f. Qed.

Lemma keeps_trans f s s1 s2 : keeps f s s1 -> keeps f s1 s2 -> keeps f s s2.
Proof. destruct f; simpl; congruence. Qed.

Lemma keeps_set_v f s a : f <> FV -> keeps f s (set_v s a).
Proof. by destruct f. Qed.

Lemma keeps_set_pc f s a : f <> FPC -> keeps f s (set_pc s a).
Proof. by destruct f. Qed.

Lemma keeps_set_i f s a : f <> FI -> keeps f s (set_i s a).
Proof. by destruct f. Qed.

Lemma keeps_set_dt f s a : f <> FDT -> keeps f s (set_dt s a).
Proof. by destruct f. Qed.

Lemma keeps_set_st f s a : f <> FST -> keeps f s (set_st s a).
Proof. by destruct f. Qed.

Lemma keeps_set_memory f s m : f <> FMemory -> keeps f s (set_memory s m).
Proof. by destruct f. Qed.

Lemma keeps_set_display f s d : f <> FDisplay -> keeps f s (set_display s d).
Proof. by destruct f. Qed.

Lemma keeps_set_requestRender f s b : f <> FRequestRender -> keeps f s (set_requestRender s b).
Proof. by destruct f. Qed.

Lemma keeps_skip_if f b s : f <> FPC -> keeps f s (skip_if b s).
Proof. intros Hf. destruct b; [by apply keeps_set_pc | apply keeps_refl]. Qed.

Lemma keeps_fold_high f x s : f <> FV -> keeps f s (fold_high x s).
Proof.
  intros Hf. unfold fold_high. destruct (js_gt _ _); [by apply keeps_set_v | apply keeps_refl].
Qed.

Lemma keeps_fold_low f x s : f <> FV -> keeps f s (fold_low x s).
Proof.
  intros Hf. unfold fold_low. destruct (js_lt _ _); [by apply keeps_set_v | apply keeps_refl].
Qed.

Lemma keeps_op_ADD_byte f x b s : f <> FV -> keeps f s (op_ADD_byte x b s).
Proof.
  intros Hf. unfold op_ADD_byte.
  eapply keeps_trans; [| by apply keeps_fold_high]. by apply keeps_set_v.
Qed.

Lemma keeps_exec_8 f op x y s : f <> FV -> keeps f s (exec_8 op x y s).
Proof.
  intros Hf.
  unfold exec_8, op_ADD, op_SUB, op_SHR, op_SUBN, op_SHL, fold_high, fold_low.
  repeat match goal with
         | |- context [if ?b then _ else _] => destruct b
         end; by destruct f.
Qed.

Lemma keeps_draw_pixel f vx vy cy cx s :
  f <> FV -> f <> FDisplay -> keeps f s (draw_pixel vx vy cy cx s).
Proof.
  intros Hv Hd. unfold draw_pixel. destruct (setPixel _ _ _) as [[] d]; by destruct f.
Qed.

Lemma keeps_draw_row f vx vy cy s :
  f <> FV -> f <> FDisplay -> f <> FRequestRender -> keeps f s (draw_row vx vy cy s).
Proof.
  intros Hv Hd Hr. unfold draw_row.
  eapply keeps_trans; [| by apply keeps_set_requestRender].
  apply (for_upto_invariant (fun a => keeps f s (snd a))); [| apply keeps_refl].
  intros j [spr s1] H. unfold draw_col. cbn [snd] in *.
  destruct (0 <? _); [| done].
  eapply keeps_trans; [exact H | by apply keeps_draw_pixel].
Qed.

Lemma keeps_op_DRW f x y n s :
  f <> FV -> f <> FDisplay -> f <> FRequestRender -> keeps f s (op_DRW x y n s).
Proof.
  intros Hv Hd Hr. unfold op_DRW.
  apply (for_upto_invariant (keeps f s)); [| by apply keeps_set_v].
  intros j s1 H. eapply keeps_trans; [exact H | by apply keeps_draw_row].
Qed.

Lemma keeps_bcd_loop f h n w s : f <> FMemory -> keeps f s (bcd_loop h n w s).
Proof.
  intros Hf. revert w s. induction n as [|n IH]; intros w s; [apply keeps_refl |].
  cbn [bcd_loop]. eapply keeps_trans; [| apply IH]. by apply keeps_set_memory.
Qed.

Lemma keeps_exec_F f h op x s :
  ~ In f (writes_F (Z.land op 0xFF)) -> keeps f s (exec_F h op x s).
Proof.
  intros Hw. unfold exec_F, op_LD_B, op_LD_I_Vx, op_LD_Vx_I. cbv zeta.
  unfold writes_F in Hw.
  set (sel := Z.land op 255) in *. clearbody sel.
  destruct (Z.eqb_spec sel 7) as [E |]; [rewrite ?E in *; destruct f; simpl in *; first [done | tauto] |].
  destruct (Z.eqb_spec sel 10) as [E |]; [apply keeps_refl |].
  destruct (Z.eqb_spec sel 21) as [E |]; [rewrite ?E in *; destruct f; simpl in *; first [done | tauto] |].
  destruct (Z.eqb_spec sel 24) as [E |]; [rewrite ?E in *; destruct f; simpl in *; first [done | tauto] |].
  destruct (Z.eqb_spec sel 30) as [E |]; [rewrite ?E in *; destruct f; simpl in *; first [done | tauto] |].
  destruct (Z.eqb_spec sel 41) as [E |]; [rewrite ?E in *; destruct f; simpl in *; first [done | tauto] |].
  destruct (Z.eqb_spec sel 51) as [E |].
  { rewrite ?E in *. apply keeps_bcd_loop. intros ->. simpl in Hw. tauto. }
  destruct (Z.eqb_spec sel 85) as [E |].
  { rewrite ?E in *. apply (for_upto_invariant (keeps f s)); [| apply keeps_refl].
    intros j s1 H. eapply keeps_trans; [exact H |]. apply keeps_set_memory.
    intros ->. simpl in Hw. tauto. }
  destruct (Z.eqb_spec sel 101) as [E |]; [rewrite ?E in * | apply keeps_refl].
  apply (for_upto_invariant (keeps f s)); [| apply keeps_refl].
  intros j s1 H. eapply keeps_trans; [exact H |]. apply keeps_set_v.
  intros ->. simpl in Hw. tauto.
Qed.

Lemma writes_pc op : In FPC (writes op).
Proof.
  unfold writes, writes_F.
  repeat match goal with
         | |- context [if ?b then _ else _] => destruct b
         end; by left.
Qed.

(** A cycle leaves every field outside [writes] of its opcode alone. *)
Lemma runCycle_keeps h s f :
  ~ In f (writes (fetch s)) -> keeps f s (final (runCycle h s)).
Proof.
  intros Hw.
  assert (f <> FPC) as Hpc by (intros ->; apply Hw, writes_pc).
  unfold runCycle. revert Hw. generalize (fetch s) as op. intros op Hw.
  eapply keeps_trans; [by apply (keeps_set_pc f s (js_add (pc s) (Num 2))) |].
  generalize (set_pc s (js_add (pc s) (Num 2))) as s0. intros s0.
  unfold dispatch, writes in *. cbv zeta in *.
  set (top := Z.land op 61440) in *. clearbody top.
  destruct (Z.eqb_spec top 0) as [E |].
  { subst top. cbn [final]. unfold exec_0, op_CLS, op_RET. simpl in Hw.
    destruct (op =? 224); [destruct f; simpl in *; first [done | tauto] |].
    destruct (op =? 238); [destruct f; simpl in *; first [done | tauto] |].
    apply keeps_refl. }
  destruct (Z.eqb_spec top 4096) as [E |]; [subst top; by apply keeps_set_pc |].
  destruct (Z.eqb_spec top 8192) as [E |].
  { subst top. cbn [final]. unfold op_CALL. destruct f; simpl in *; first [done | tauto]. }
  destruct (Z.eqb_spec top 12288) as [E |]; [subst top; by apply keeps_skip_if |].
  destruct (Z.eqb_spec top 16384) as [E |]; [subst top; by apply keeps_skip_if |].
  destruct (Z.eqb_spec top 20480) as [E |]; [subst top; by apply keeps_skip_if |].
  destruct (Z.eqb_spec top 24576) as [E |].
  { subst top. cbn [final]. destruct f; simpl in *; first [done | tauto]. }
  destruct (Z.eqb_spec top 28672) as [E |].
  { subst top. cbn [final]. apply keeps_op_ADD_byte. intros ->. simpl in Hw. tauto. }
  destruct (Z.eqb_spec top 32768) as [E |].
  { subst top. cbn [final]. apply keeps_exec_8. intros ->. simpl in Hw. tauto. }
  destruct (Z.eqb_spec top 36864) as [E |]; [subst top; by apply keeps_skip_if |].
  destruct (Z.eqb_spec top 40960) as [E |].
  { subst top. cbn [final]. destruct f; simpl in *; first [done | tauto]. }
  destruct (Z.eqb_spec top 45056) as [E |]; [subst top; by apply keeps_set_pc |].
  destruct (Z.eqb_spec top 49152) as [E |].
  { subst top. cbn [final]. unfold op_RND. destruct f; simpl in *; first [done | tauto]. }
  destruct (Z.eqb_spec top 53248) as [E |].
  { subst top. cbn [final]. apply keeps_op_DRW; intros ->; simpl in Hw; tauto. }
  destruct (Z.eqb_spec top 57344) as [E |].
  { subst top. cbn [final]. unfold exec_E. repeat destruct (_ =? _); apply keeps_refl. }
  destruct (Z.eqb_spec top 61440) as [E |]; [subst top | apply keeps_refl].
  cbn [final]. by apply keeps_exec_F.
Qed.

(** ** The fetch *)


(** X2: the opcode is the big-endian pair of the bytes at [pc] and
    [pc + 1]; at the last address of memory the missing low byte counts
    as 0. *)
Theorem fetch_big_endian s a hi :
  pc s = Num a ->
  load_byte s (Num a) = Num hi ->
  (forall lo, load_byte s (Num (a + 1)) = Num lo -> fetch s = 256 * hi + lo)
  /\ (load_byte s (Num (a + 1)) = Undefined -> fetch s = 256 * hi).
Proof.
  intros Hpc Hhi.
  assert (0 <= hi <= 255) as Hr.
  { destruct (load_byte_cases s (Num a)) as [E | (b & E & Hb)]; congruence. }
  unfold fetch, js_or, js_shl. rewrite Hpc. cbn [js_add ToNumber]. rewrite Hhi.
  cbn [ToInt32]. rewrite (wrap32_small hi) by lia. rewrite Z.shiftl_mul_pow2 by lia.
  rewrite !(wrap32_small (hi * 2 ^ 8)) by lia. change (2 ^ 8) with 256.
  split.
  - intros lo Hlo.
    assert (0 <= lo <= 255) as Hl.
    { destruct (load_byte_cases s (Num (a + 1))) as [E | (b & E & Hb)]; congruence. }
    rewrite Hlo. cbn [ToInt32]. rewrite (wrap32_small lo) by lia.
    destruct (byte_pair_ops hi lo Hr Hl) as (-> & _). lia.
  - intros ->. cbn [ToInt32]. rewrite Z.lor_0_r. lia.
Qed.

Lemma fetch_big_endian_witness :
  fetch (loaded [0x12; 0x34]) = 256 * 0x12 + 0x34.
Proof.
  destruct (fetch_big_endian (loaded [0x12; 0x34]) 0x200 0x12) as [H _].
  - by vm_compute.
  - by vm_compute.
  - apply H. by vm_compute.
Defined.

(** X3: when [pc] is not a number, or points at or past the end of
    memory, both bytes read as [undefined], the opcode is 0 and the cycle
    does nothing but add 2 to [pc]: running off the end of memory never
    stops the machine. *)
Theorem fetch_outside_memory_is_nop h s :
  pc s = Undefined \/ pc s = NaN
  \/ (exists a, pc s = Num a /\ Z.of_nat (length (memory s)) <= a) ->
  fetch s = 0 /\ runCycle h s = Normal (set_pc s (js_add (pc s) (Num 2))).
Proof.
  intros Hpc.
  assert (fetch s = 0) as Hf.
  { unfold fetch, load_byte. destruct Hpc as [-> | [-> | (a & -> & Ha)]]; try reflexivity.
    cbn [js_add ToNumber]. unfold mem_get.
    destruct (Z.leb_spec 0 a); [| lia]. destruct (Z.leb_spec 0 (a + 1)); [| lia].
    rewrite !lookup_ge_None_2 by lia. reflexivity. }
  split; [done |]. unfold runCycle. rewrite Hf. reflexivity.
Qed.

Lemma fetch_outside_memory_is_nop_witness :
  let s := final (run [host0; host0] (loaded [0x60; 0x01; 0xBF; 0xFF])) in
  pc s = Num 0x1000 /\ fetch s = 0.
Proof.
  intros s.
  assert (pc s = Num 0x1000) as Hpc by (by vm_compute).
  split; [exact Hpc |].
  apply (fetch_outside_memory_is_nop host0 s).
  right. right. exists 0x1000. split; [exact Hpc | by vm_compute].
Defined.

Lemma mask_F0FF op :
  0 <= op < 65536 ->
  Z.land op 0xF0FF = Z.land op 0xF000 + Z.land op 0xFF /\ 0 <= Z.land op 0xFF <= 255.
Proof.
  intros Hop.
  assert (mask_check op = true) as H.
  { apply (forall_below mask_check 65536); [by vm_compute | lia]. }
  unfold mask_check in H.
  apply andb_prop in H as [H H3]. apply andb_prop in H as [H1 H2].
  apply Z.eqb_eq in H1. apply Z.leb_le in H2, H3. lia.
Qed.

(** Decides membership in [writes] of the opcode fetched in [s] from the
    hypotheses on its masks. *)
Ltac not_written s :=
  let Hm := fresh "Hm" in
  destruct (mask_F0FF (fetch s) (fetch_range s)) as [Hm ?];
  unfold writes, writes_F; cbv zeta;
  repeat match goal with
         | |- context [Z.eqb ?a ?b] => destruct (Z.eqb_spec a b); try lia
         end;
  cbn [orb]; cbv iota; cbn [In];
  intuition (discriminate || lia).

(** ** What a cycle leaves alone *)

(** X4: memory is written by [LD B, Vx] (Fx33) and [LD [I], Vx] (Fx55)
    only; every other cycle leaves all of memory as it was. *)
Theorem memory_written_only_by_stores h s :
  Z.land (fetch s) 0xF0FF <> 0xF033 ->
  Z.land (fetch s) 0xF0FF <> 0xF055 ->
  memory (final (runCycle h s)) = memory s.
Proof.
  intros H33 H55. apply (runCycle_keeps h s FMemory). not_written s.
Qed.

Lemma memory_written_only_by_stores_witness :
  let s := loaded [0x60; 0x05] in
  memory (final (runCycle host0 s)) = memory s.
Proof.
  intros s. apply (memory_written_only_by_stores host0 s); by vm_compute.
Defined.

(** X5: the display buffer is written by [DRW] only, and by whatever the
    renderer does to it during [CLS]; every other cycle leaves it as it
    was. *)
Theorem display_written_only_by_draw h s :
  Z.land (fetch s) 0xF000 <> 0xD000 ->
  fetch s <> 0x00E0 ->
  display (final (runCycle h s)) = display s.
Proof.
  intros HD HE. apply (runCycle_keeps h s FDisplay). not_written s.
Qed.

Lemma display_written_only_by_draw_witness :
  let s := loaded [0x60; 0x05] in
  display (final (runCycle host0 s)) = display s.
Proof.
  intros s. apply (display_written_only_by_draw host0 s); by vm_compute.
Defined.

(** X6: the return stack is written by [CALL] only; in particular [RET]
    leaves the entry it returns through in place. *)
Theorem stack_written_only_by_call h s :
  Z.land (fetch s) 0xF000 <> 0x2000 ->
  stack (final (runCycle h s)) = stack s.
Proof.
  intros HC. apply (runCycle_keeps h s FStack). not_written s.
Qed.

Lemma stack_written_only_by_call_witness :
  let s := final (run [host0] (loaded [0x22; 0x04; 0x00; 0x00; 0x00; 0xEE])) in
  fetch s = 0x00EE /\ stack (final (runCycle host0 s)) = stack s.
Proof.
  intros s. split; [by vm_compute |].
  apply (stack_written_only_by_call host0 s). by vm_compute.
Defined.

(** X7: the delay timer changes only by [LD DT, Vx] (Fx15) and the sound
    timer only by [LD ST, Vx] (Fx18): no cycle counts a timer down. *)
Theorem timers_never_count_down h s :
  Z.land (fetch s) 0xF0FF <> 0xF015 ->
  Z.land (fetch s) 0xF0FF <> 0xF018 ->
  dt (final (runCycle h s)) = dt s /\ st (final (runCycle h s)) = st s.
Proof.
  intros H15 H18. split.
  - apply (runCycle_keeps h s FDT). not_written s.
  - apply (runCycle_keeps h s FST). not_written s.
Qed.

Lemma timers_never_count_down_witness :
  let s := final (run [host0; host0] (loaded [0x60; 0x09; 0xF0; 0x15; 0x00; 0x00])) in
  dt s = Num 9 /\ dt (final (runCycle host0 s)) = Num 9.
Proof.
  intros s.
  assert (dt s = Num 9) as Hdt by (by vm_compute).
  split; [exact Hdt |].
  destruct (timers_never_count_down host0 s) as [H _]; [by vm_compute | by vm_compute |].
  rewrite H. exact Hdt.
Defined.

(** ** Skips *)

(** X8: [SE Vx, kk] (3xkk) moves [pc] past the next instruction exactly
    when [V[x] === kk], and [SNE Vx, kk] (4xkk) exactly when it does not:
    from the same state one of the two skips and the other does not. *)
Theorem skip_on_byte h s x kk a :
  0 <= x < 16 -> 0 <= kk < 256 -> pc s = Num a ->
  (fetch s = 0x3000 + 256 * x + kk ->
   pc (final (runCycle h s))
   = Num (if strict_eq (getV s x) (Num kk) then a + 4 else a + 2))
  /\ (fetch s = 0x4000 + 256 * x + kk ->
      pc (final (runCycle h s))
      = Num (if strict_eq (getV s x) (Num kk) then a + 2 else a + 4)).
Proof.
  intros Hx Hk Hpc. split; intros Hf; unfold runCycle; rewrite Hf.
  - change (0x3000 + 256 * x + kk) with (4096 * 3 + 256 * x + kk).
    unfold dispatch. destruct (xkk_fields 3 x kk) as (-> & -> & ->); [lia | lia | lia |].
    simpl (_ =? _). cbv iota. cbn [final]. rewrite getV_set_pc.
    unfold skip_if. destruct (strict_eq _ _); cbn [pc set_pc]; rewrite Hpc;
      cbn [js_add ToNumber]; f_equal; lia.
  - change (0x4000 + 256 * x + kk) with (4096 * 4 + 256 * x + kk).
    unfold dispatch. destruct (xkk_fields 4 x kk) as (-> & -> & ->); [lia | lia | lia |].
    simpl (_ =? _). cbv iota. cbn [final]. rewrite getV_set_pc.
    unfold skip_if. destruct (strict_eq _ _); cbn [negb pc set_pc]; rewrite Hpc;
      cbn [js_add ToNumber]; f_equal; lia.
Qed.

Lemma skip_on_byte_witness :
  let s := final (run [host0] (loaded [0x60; 0x07; 0x30; 0x07])) in
  pc (final (runCycle host0 s)) = Num 0x206.
Proof.
  intros s.
  destruct (skip_on_byte host0 s 0 7 0x202) as [H _]; [lia | lia | by vm_compute |].
  rewrite H; by vm_compute.
Defined.

(** X9: the register comparisons ignore the low nibble of the opcode:
    every [5xyn] skips exactly when [V[x] === V[y]] and every [9xyn]
    exactly when not, also for [n <> 0], which the instruction set does
    not define. *)
Theorem skip_on_registers_ignores_low_nibble h s x y n a :
  0 <= x < 16 -> 0 <= y < 16 -> 0 <= n < 16 -> pc s = Num a ->
  (fetch s = 0x5000 + 256 * x + 16 * y + n ->
   pc (final (runCycle h s))
   = Num (if strict_eq (getV s x) (getV s y) then a + 4 else a + 2))
  /\ (fetch s = 0x9000 + 256 * x + 16 * y + n ->
      pc (final (runCycle h s))
      = Num (if strict_eq (getV s x) (getV s y) then a + 2 else a + 4)).
Proof.
  intros Hx Hy Hn Hpc. split; intros Hf; unfold runCycle; rewrite Hf.
  - replace (0x5000 + 256 * x + 16 * y + n) with (4096 * 5 + 256 * x + 16 * y + n) by lia.
    decode_nibbles 5 x y n. cbv iota. cbn [final]. rewrite !getV_set_pc.
    unfold skip_if. destruct (strict_eq _ _); cbn [pc set_pc]; rewrite Hpc;
      cbn [js_add ToNumber]; f_equal; lia.
  - replace (0x9000 + 256 * x + 16 * y + n) with (4096 * 9 + 256 * x + 16 * y + n) by lia.
    decode_nibbles 9 x y n. cbv iota. cbn [final]. rewrite !getV_set_pc.
    unfold skip_if. destruct (strict_eq _ _); cbn [negb pc set_pc]; rewrite Hpc;
      cbn [js_add ToNumber]; f_equal; lia.
Qed.

Lemma skip_on_registers_ignores_low_nibble_witness :
  let s := loaded [0x50; 0x1F] in
  pc (final (runCycle host0 s)) = Num 0x204.
Proof.
  intros s.
  destruct (skip_on_registers_ignores_low_nibble host0 s 0 1 15 0x200) as [H _];
    [lia | lia | lia | by vm_compute |].
  rewrite H; by vm_compute.
Defined.

(** ** Flags of the arithmetic instructions *)

(** X10: with byte operands and [x], [y] other than 0xF, [ADD Vx, Vy]
    sets the flag to 1 exactly on a sum above 255; [SUB] sets it exactly
    when [V[x] > V[y]] and [SUBN] exactly when [V[y] > V[x]], so equal
    operands give flag 0 and result 0; [SHR] sets it to the low bit of
    [V[x]] and halves [V[x]]. *)
Theorem alu_flags h s x y zx zy :
  0 <= x < 15 -> 0 <= y < 15 ->
  getV s x = Num zx -> 0 <= zx <= 255 ->
  getV s y = Num zy -> 0 <= zy <= 255 ->
  (fetch s = 0x8004 + 256 * x + 16 * y ->
   getV (final (runCycle h s)) 0xF = Num (if 255 <? zx + zy then 1 else 0))
  /\ (fetch s = 0x8005 + 256 * x + 16 * y ->
      getV (final (runCycle h s)) 0xF = Num (if zy <? zx then 1 else 0))
  /\ (fetch s = 0x8007 + 256 * x + 16 * y ->
      getV (final (runCycle h s)) 0xF = Num (if zx <? zy then 1 else 0))
  /\ (fetch s = 0x8006 + 256 * x + 16 * y ->
      getV (final (runCycle h s)) 0xF = Num (zx mod 2)
      /\ getV (final (runCycle h s)) x = Num (zx / 2)).
Proof.
  intros Hx Hy Ex Hzx Ey Hzy.
  assert (x = y -> zx = zy) as Hxy by (intros ->; congruence).
  assert (Ex' : getV (set_pc s (js_add (pc s) (Num 2))) x = Num zx) by done.
  assert (Ey' : getV (set_pc s (js_add (pc s) (Num 2))) y = Num zy) by done.
  split; [| split; [| split]]; intros Hf; unfold runCycle; rewrite Hf.
  - replace (0x8004 + 256 * x + 16 * y) with (4096 * 8 + 256 * x + 16 * y + 4) by lia.
    decode_nibbles 8 x y 4. cbv iota. cbn [final].
    unfold op_ADD, fold_high.
    regs_step; try lia; try (specialize (Hxy eq_refl)); try done;
      destruct (Z.ltb_spec 255 (zx + zy)); try done; lia.
  - replace (0x8005 + 256 * x + 16 * y) with (4096 * 8 + 256 * x + 16 * y + 5) by lia.
    decode_nibbles 8 x y 5. cbv iota. cbn [final].
    unfold op_SUB, fold_low.
    regs_step; try lia; try (specialize (Hxy eq_refl)); try done;
      destruct (Z.ltb_spec zy zx); try done; lia.
  - replace (0x8007 + 256 * x + 16 * y) with (4096 * 8 + 256 * x + 16 * y + 7) by lia.
    decode_nibbles 8 x y 7. cbv iota. cbn [final].
    unfold op_SUBN, fold_low.
    regs_step; try lia; try (specialize (Hxy eq_refl)); try done;
      destruct (Z.ltb_spec zx zy); try done; lia.
  - replace (0x8006 + 256 * x + 16 * y) with (4096 * 8 + 256 * x + 16 * y + 6) by lia.
    decode_nibbles 8 x y 6. cbv iota. cbn [final].
    unfold op_SHR.
    split; regs_step; try lia.
    + f_equal. unfold js_and. cbn [ToInt32]. rewrite (wrap32_small zx) by lia.
      change (wrap32 1) with (Z.ones 1). rewrite Z.land_ones by lia. done.
    + f_equal. by apply js_shr1.
Qed.

Lemma alu_flags_witness :
  let s := final (run [host0; host0] (loaded [0x60; 0x07; 0x61; 0x07; 0x80; 0x15])) in
  getV (final (runCycle host0 s)) 0xF = Num 0.
Proof.
  intros s.
  destruct (alu_flags host0 s 0 1 7 7) as (_ & H & _);
    [lia | lia | by vm_compute | lia | by vm_compute | lia |].
  rewrite H; by vm_compute.
Defined.

(** ** RND *)

(** X11: whatever [Math.random] returns, [RND Vx, kk] leaves in [V[x]] a
    byte that has no bit outside [kk], and changes no other register. *)
Theorem rnd_within_mask h s x kk :
  0 <= x < 16 -> 0 <= kk < 256 ->
  fetch s = 0xC000 + 256 * x + kk ->
  (exists r, getV (final (runCycle h s)) x = Num r
             /\ 0 <= r <= kk /\ Z.land r kk = r)
  /\ (forall k, k <> x -> getV (final (runCycle h s)) k = getV s k).
Proof.
  intros Hx Hk Hf. unfold runCycle. rewrite Hf.
  change (0xC000 + 256 * x + kk) with (4096 * 12 + 256 * x + kk).
  unfold dispatch. destruct (xkk_fields 12 x kk) as (-> & -> & ->); [lia | lia | lia |].
  simpl (_ =? _). cbv iota. cbn [final]. unfold op_RND.
  split.
  - eexists. split; [apply getV_setV_eq |].
    set (A := floor_int32 _). clearbody A.
    assert (Z.land (Z.land A kk) kk = Z.land A kk) as Hsub
        by (by rewrite <- Z.land_assoc, Z.land_diag).
    split; [| done].
    split; [apply Z.land_nonneg; lia |].
    pose proof (Z.add_lxor_2land (Z.land A kk) kk) as H1.
    pose proof (Z.lxor_nonneg (Z.land A kk) kk) as H2.
    assert (0 <= Z.land A kk) by (apply Z.land_nonneg; lia).
    assert (0 <= Z.lxor (Z.land A kk) kk) by (apply H2; lia).
    rewrite Hsub in H1. lia.
  - intros k Hne. rewrite getV_setV_ne by done. reflexivity.
Qed.

Lemma rnd_within_mask_witness :
  let s := loaded [0xC0; 0x0F] in
  exists r, getV (final (runCycle host0 s)) 0 = Num r /\ 0 <= r <= 0x0F /\ Z.land r 0x0F = r.
Proof.
  intros s.
  destruct (rnd_within_mask host0 s 0 0x0F) as [H _]; [lia | lia | by vm_compute |].
  exact H.
Defined.

(** ** One draw *)

Lemma erased_iff_lit a : (js_xor a (Num 1) =? 0) = (ToInt32 a =? 1).
Proof.
  rewrite js_xor_1.
  destruct (Z.eqb_spec (Z.lxor (ToInt32 a) 1) 0) as [E | N];
    destruct (Z.eqb_spec (ToInt32 a) 1) as [E' | N']; try done.
  - apply Z.lxor_eq in E. done.
  - rewrite E' in N. done.
Qed.

Lemma drawing_result s s1 a :
  drawing s s1 a -> display s1 = snd a /\ getV s1 0xF = Num (if fst a then 1 else 0).
Proof.
  intros (Hd & Hv & _). split; [done |].
  assert (forall (m : jsarray) c, arr_get (arr_set m (Idx 15) c) (Idx 15) = c) as E.
  { intros m c. rewrite arr_get_set. by destruct (decide (Idx 15 = Idx 15)). }
  unfold getV. rewrite Hv. destruct (fst a); by rewrite E.
Qed.

(** X12: [DRW] at an in-range position flips exactly the display cells of
    the set sprite bits, low bit of each cell, and leaves every other cell
    as it was; it sets [V[0xF]] to 1 when one of those cells was lit
    before the draw and to 0 otherwise. *)
Theorem draw_flips_sprite_cells h s x y n px py :
  0 <= x < 16 -> 0 <= y < 16 -> 0 <= n < 16 ->
  fetch s = 0xD000 + 256 * x + 16 * y + n ->
  drawn_at s x = Num px -> 0 <= px < 64 ->
  drawn_at s y = Num py -> 0 <= py < 32 ->
  (forall k, arr_get (display (final (runCycle h s))) k
             = if decide (k ∈ sprite_keys s (Num px) (Num py) n)
               then Num (Z.lxor (ToInt32 (arr_get (display s) k)) 1)
               else arr_get (display s) k)
  /\ getV (final (runCycle h s)) 0xF
     = Num (if existsb (lit (display s)) (sprite_keys s (Num px) (Num py) n)
            then 1 else 0).
Proof.
  intros Hx Hy Hn Hf Epx Hpx Epy Hpy.
  rewrite (runCycle_DRW h s x y n Hx Hy Hn Hf). cbn [final].
  set (s0 := set_pc s (js_add (pc s) (Num 2))).
  set (ks := sprite_keys s (Num px) (Num py) n).
  pose proof (op_DRW_drawing x y n s0) as D1.
  assert (sprite_keys s0 (drawn_at s0 x) (drawn_at s0 y) n = ks) as K0.
  { change (drawn_at s0 x) with (drawn_at s x). change (drawn_at s0 y) with (drawn_at s y).
    rewrite Epx, Epy. by apply rows_keys_ext. }
  rewrite K0 in D1. change (display s0) with (display s) in D1.
  assert (NoDup ks) as Hnd by (apply rows_keys_nodup; lia).
  destruct (toggle_all_nodup ks false (display s) Hnd) as [Hflag Hcells].
  destruct (drawing_result _ _ _ D1) as (Hd & Hv).
  split.
  - intros k. rewrite Hd, Hcells. by rewrite js_xor_1.
  - rewrite Hv, Hflag. cbn [orb]. f_equal.
    rewrite (existsb_ext_in _ (lit (display s))); [done |].
    intros k _. apply erased_iff_lit.
Qed.

Lemma draw_flips_sprite_cells_witness :
  let s := final (run [host0] (loaded [0xA0; 0x00; 0xD0; 0x15])) in
  getV (final (runCycle host0 s)) 0xF = Num 0.
Proof.
  intros s.
  destruct (draw_flips_sprite_cells host0 s 0 1 5 0 0) as [_ H];
    [lia | lia | lia | by vm_compute | by vm_compute | lia | by vm_compute | lia |].
  rewrite H. by vm_compute.
Defined.

Lemma requestRender_set_requestRender s b : requestRender (set_requestRender s b) = b.
Proof. reflexivity. Qed.

Lemma requestRender_draw_row vx vy cy s : requestRender (draw_row vx vy cy s) = true.
Proof. unfold draw_row. apply requestRender_set_requestRender. Qed.

(** X13: [DRW] requests a render exactly when the sprite has at least one
    row: a draw with [n = 0] leaves [requestRender] as it was. *)
Theorem draw_requests_render h s x y n :
  0 <= x < 16 -> 0 <= y < 16 -> 0 <= n < 16 ->
  fetch s = 0xD000 + 256 * x + 16 * y + n ->
  requestRender (final (runCycle h s)) = (0 <? n) || requestRender s.
Proof.
  intros Hx Hy Hn Hf.
  rewrite (runCycle_DRW h s x y n Hx Hy Hn Hf). cbn [final]. unfold op_DRW.
  destruct (Z.to_nat n) as [|m] eqn:E.
  - assert (n = 0) as -> by lia. reflexivity.
  - assert (0 < n) as Hpos by lia.
    destruct (Z.ltb_spec 0 n); [| lia]. cbn [orb for_upto].
    apply (for_upto_invariant (fun s1 => requestRender s1 = true)).
    + intros j s1 _. apply requestRender_draw_row.
    + apply requestRender_draw_row.
Qed.

Lemma draw_requests_render_witness :
  requestRender (final (runCycle host0 (loaded [0xD0; 0x10]))) = false.
Proof.
  rewrite (draw_requests_render host0 (loaded [0xD0; 0x10]) 0 1 0);
    [reflexivity | lia | lia | lia | by vm_compute].
Defined.

(** ** Stores outside memory *)

Lemma mem_set_outside m idx x :
  (forall z, idx = Num z -> Z.of_nat (length m) <= z) -> mem_set m idx x = m.
Proof.
  intros H. unfold mem_set. destruct idx as [| |z]; try done.
  destruct (Z.leb_spec 0 z); [| done].
  apply list_insert_ge. specialize (H z eq_refl). lia.
Qed.

(** X14: when [I] is not a number or lies at or past the end of memory,
    [LD B, Vx] (Fx33) and [LD [I], Vx] (Fx55) store nothing: the writes
    are dropped without an error and memory is as it was. *)
Theorem stores_outside_memory_are_dropped h s x :
  0 <= x < 16 ->
  (forall a, i s = Num a -> Z.of_nat (length (memory s)) <= a) ->
  fetch s = 0xF033 + 256 * x \/ fetch s = 0xF055 + 256 * x ->
  memory (final (runCycle h s)) = memory s.
Proof.
  intros Hx Hi Hf. unfold runCycle.
  set (s0 := set_pc s (js_add (pc s) (Num 2))).
  assert (forall s1 c x0, 0 <= c -> memory s1 = memory s -> i s1 = i s ->
            memory (store_byte s1 (js_add (i s1) (Num c)) x0) = memory s) as Hstore.
  { intros s1 c x0 Hc Hm Hi1. unfold store_byte. cbn [memory set_memory].
    rewrite mem_set_outside; [done |].
    intros z Hz. rewrite Hi1, Hm in *. destruct (i s) as [| |a]; try done.
    cbn [js_add ToNumber] in Hz. injection Hz as <-. specialize (Hi a eq_refl). lia. }
  destruct Hf as [-> | ->].
  - replace (0xF033 + 256 * x) with (4096 * 15 + 256 * x + 16 * 3 + 3) by lia.
    decode_nibbles 15 x 3 3. cbv iota. cbn [final]. unfold op_LD_B.
    generalize (to_float (getV s0 x)) as w.
    assert (memory s0 = memory s /\ i s0 = i s) as Hs0 by done.
    revert Hs0. generalize s0 as s1. generalize 3%nat as c.
    induction c as [|c IH]; intros s1 [Hm Hi1] w; [done |].
    cbn [bcd_loop]. apply IH. split; [| done].
    unfold store_byte. cbn [memory set_memory].
    rewrite mem_set_outside; [done |].
    intros z Hz. rewrite Hi1, Hm in *. destruct (i s) as [| |a]; try done.
    cbn [js_add js_sub ToNumber] in Hz. injection Hz as <-. specialize (Hi a eq_refl). lia.
  - replace (0xF055 + 256 * x) with (4096 * 15 + 256 * x + 16 * 5 + 5) by lia.
    decode_nibbles 15 x 5 5. cbv iota. cbn [final]. unfold op_LD_I_Vx.
    apply (for_upto_invariant_idx
             (fun s1 => memory s1 = memory s /\ i s1 = i s)); [| done].
    intros j s1 Hj [Hm Hi1]. split; [| done]. apply Hstore; [lia | done | done].
Qed.

Lemma stores_outside_memory_are_dropped_witness :
  let s := final (run [host0; host0; host0]
                    (loaded [0x60; 0xFF; 0xAF; 0xFF; 0xF0; 0x1E; 0xF0; 0x55])) in
  i s = Num 0x10FE /\ memory (final (runCycle host0 s)) = memory s.
Proof.
  intros s.
  assert (i s = Num 0x10FE) as Hi by (by vm_compute).
  split; [exact Hi |].
  apply (stores_outside_memory_are_dropped host0 s 0).
  - lia.
  - intros a Ha. rewrite Hi in Ha. injection Ha as <-. by vm_compute.
  - right. by vm_compute.
Defined.

(** ** Register block store and load *)

Lemma load_store_eq s a x :
  0 <= a < Z.of_nat (length (memory s)) ->
  load_byte (store_byte s (Num a) x) (Num a) = Num (Z_of_byte (ToUint8 x)).
Proof. intros Ha. unfold load_byte, store_byte. cbn [memory set_memory]. by apply mem_get_set_eq. Qed.

Lemma load_store_ne s a b x :
  a <> b -> load_byte (store_byte s (Num a) x) (Num b) = load_byte s (Num b).
Proof. intros Hne. unfold load_byte, store_byte. cbn [memory set_memory]. by apply mem_get_set_ne. Qed.

(** The loop of [LD [I], Vx] from register [k0] on. *)
Lemma store_regs_loop a n :
  forall k0 s,
    i s = Num a -> 0 <= a + k0 ->
    a + k0 + Z.of_nat n <= Z.of_nat (length (memory s)) ->
    let s' := for_upto n k0 (fun k s => store_byte s (js_add (i s) (Num k)) (getV s k)) s in
    v s' = v s /\ i s' = i s /\ length (memory s') = length (memory s)
    /\ (forall k, k0 <= k < k0 + Z.of_nat n ->
                  load_byte s' (Num (a + k)) = Num (Z_of_byte (ToUint8 (getV s k))))
    /\ (forall b, ~ (a + k0 <= b < a + k0 + Z.of_nat n) ->
                  load_byte s' (Num b) = load_byte s (Num b)).
Proof.
  induction n as [|n IH]; intros k0 s Hi Ha Hlen; cbn [for_upto].
  { repeat split; try done. intros k Hk. lia. }
  set (s1 := store_byte s (js_add (i s) (Num k0)) (getV s k0)).
  assert (i s1 = Num a) as Hi1 by done.
  assert (length (memory s1) = length (memory s)) as Hl1
      by (unfold s1, store_byte; cbn [memory set_memory]; apply length_mem_set).
  destruct (IH (k0 + 1) s1 Hi1 ltac:(lia) ltac:(lia)) as (Hv & Hi' & Hl & Hin & Hout).
  split; [by rewrite Hv |]. split; [by rewrite Hi' |]. split; [by rewrite Hl |].
  assert (js_add (i s) (Num k0) = Num (a + k0)) as Eaddr by (by rewrite Hi).
  split.
  - intros k Hk. destruct (decide (k = k0)) as [-> | Hne].
    + rewrite Hout by lia. unfold s1. rewrite Eaddr. apply load_store_eq. lia.
    + rewrite Hin by lia. reflexivity.
  - intros b Hb. rewrite Hout by lia. unfold s1. rewrite Eaddr.
    apply load_store_ne. lia.
Qed.

(** The loop of [LD Vx, [I]] from register [k0] on. *)
Lemma load_regs_loop a n :
  forall k0 s,
    i s = Num a ->
    let s' := for_upto n k0 (fun k s => setV s k (load_byte s (js_add (i s) (Num k)))) s in
    memory s' = memory s /\ i s' = i s
    /\ (forall k, getV s' k = if decide (k0 <= k < k0 + Z.of_nat n)
                              then load_byte s (Num (a + k)) else getV s k).
Proof.
  induction n as [|n IH]; intros k0 s Hi; cbn [for_upto].
  { repeat split. intros k. destruct (decide (k0 <= k < k0 + Z.of_nat 0)); [lia | done]. }
  set (s1 := setV s k0 (load_byte s (js_add (i s) (Num k0)))).
  assert (i s1 = Num a) as Hi1 by done.
  destruct (IH (k0 + 1) s1 Hi1) as (Hm & Hi' & Hregs).
  split; [by rewrite Hm |]. split; [by rewrite Hi' |].
  intros k. rewrite Hregs.
  destruct (decide (k0 + 1 <= k < k0 + 1 + Z.of_nat n));
    destruct (decide (k0 <= k < k0 + Z.of_nat (S n))); try lia; try done.
  - unfold s1. rewrite getV_setV. destruct (decide (k0 = k)) as [<- | Hne]; [| lia].
    by rewrite Hi.
  - unfold s1. rewrite getV_setV. destruct (decide (k0 = k)) as [<- | Hne]; [lia | done].
Qed.

Lemma i_set_pc s a : i (set_pc s a) = i s.
Proof. reflexivity. Qed.

(** X15: with [V0..Vx] bytes and [I..I+x] inside memory, [LD [I], Vx]
    (Fx55) puts [V[k]] at [memory[I + k]] for every [k <= x], and a
    following [LD Vx, [I]] (Fx65) reads the same values back, so every
    register is as before the store. *)
Theorem register_block_round_trip h1 h2 s x a :
  0 <= x < 16 ->
  length (memory s) = 4096%nat ->
  i s = Num a -> 0 <= a -> a + x < 4096 ->
  (forall k, 0 <= k <= x -> is_byte (getV s k) = true) ->
  fetch s = 0xF055 + 256 * x ->
  fetch (final (runCycle h1 s)) = 0xF065 + 256 * x ->
  (forall k, 0 <= k <= x -> load_byte (final (runCycle h1 s)) (Num (a + k)) = getV s k)
  /\ (forall k, getV (final (runCycle h2 (final (runCycle h1 s)))) k = getV s k).
Proof.
  intros Hx Hlen Hi Ha Hax Hbytes Hf.
  assert (runCycle h1 s = Normal (op_LD_I_Vx x (set_pc s (js_add (pc s) (Num 2))))) as ->.
  { unfold runCycle. rewrite Hf.
    replace (0xF055 + 256 * x) with (4096 * 15 + 256 * x + 16 * 5 + 5) by lia.
    decode_nibbles 15 x 5 5. reflexivity. }
  cbn [final]. intros Hf1.
  set (s0 := set_pc s (js_add (pc s) (Num 2))) in *.
  destruct (store_regs_loop a (Z.to_nat (x + 1)) 0 s0) as (Hv & Hi1 & Hl & Hin & _);
    [done | lia | change (memory s0) with (memory s); rewrite Hlen; lia |].
  fold (op_LD_I_Vx x s0) in Hv, Hi1, Hl, Hin.
  set (s1 := op_LD_I_Vx x s0) in *.
  assert (forall k, 0 <= k <= x -> load_byte s1 (Num (a + k)) = getV s k) as Hmem.
  { intros k Hk. rewrite Hin by lia. change (getV s0 k) with (getV s k).
    destruct (is_byte_inv _ (Hbytes k Hk)) as (z & -> & Hz).
    cbn [ToUint8]. rewrite Z_of_byte_of_Z. f_equal. apply Z.mod_small. lia. }
  split; [exact Hmem |].
  assert (runCycle h2 s1 = Normal (op_LD_Vx_I x (set_pc s1 (js_add (pc s1) (Num 2))))) as ->.
  { unfold runCycle. rewrite Hf1.
    replace (0xF065 + 256 * x) with (4096 * 15 + 256 * x + 16 * 6 + 5) by lia.
    decode_nibbles 15 x 6 5. reflexivity. }
  cbn [final].
  destruct (load_regs_loop a (Z.to_nat (x + 1)) 0 (set_pc s1 (js_add (pc s1) (Num 2))))
    as (_ & _ & Hregs); [rewrite i_set_pc, Hi1; exact Hi |].
  fold (op_LD_Vx_I x (set_pc s1 (js_add (pc s1) (Num 2)))) in Hregs.
  intros k. rewrite Hregs.
  destruct (decide (0 <= k < 0 + Z.of_nat (Z.to_nat (x + 1)))) as [Hk |].
  - rewrite <- (Hmem k) by lia. reflexivity.
  - rewrite getV_set_pc. unfold getV. by rewrite Hv.
Qed.

Lemma register_block_round_trip_witness :
  let s := final (run [host0; host0; host0]
                    (loaded [0x60; 0x11; 0x61; 0x22; 0xA3; 0x00; 0xF1; 0x55; 0xF1; 0x65])) in
  load_byte (final (runCycle host0 s)) (Num (0x300 + 1)) = Num 0x22.
Proof.
  intros s.
  destruct (register_block_round_trip host0 host0 s 1 0x300) as [H _].
  - lia.
  - by vm_compute.
  - by vm_compute.
  - lia.
  - lia.
  - intros k Hk. assert (k = 0 \/ k = 1) as [-> | ->] by lia; by vm_compute.
  - by vm_compute.
  - by vm_compute.
  - rewrite (H 1) by lia. by vm_compute.
Defined.

(** ** Subroutines *)

Lemma final_run_cons h hs s :
  final (run (h :: hs) s) = final (run hs (final (runCycle h s))).
Proof. cbn [run]. destruct (runCycle_never_throws h s) as [s' ->]. reflexivity. Qed.

Lemma stack_neutral_keeps h s :
  stack_neutral s = true ->
  stack (final (runCycle h s)) = stack s /\ sp (final (runCycle h s)) = sp s.
Proof.
  unfold stack_neutral. intros H. apply andb_prop in H as [H1 H2].
  apply negb_true_iff in H1, H2. apply Z.eqb_neq in H1, H2.
  split.
  - apply (runCycle_keeps h s FStack). not_written s.
  - apply (runCycle_keeps h s FSP). not_written s.
Qed.

Lemma body_neutral_keeps hs s :
  body_neutral hs s = true ->
  stack (final (run hs s)) = stack s /\ sp (final (run hs s)) = sp s.
Proof.
  revert s. induction hs as [|h hs IH]; intros s H; [done |].
  cbn [body_neutral] in H. apply andb_prop in H as [H1 H2].
  rewrite final_run_cons.
  destruct (IH _ H2) as [-> ->]. by apply stack_neutral_keeps.
Qed.

Lemma pc_op_RET s : pc (op_RET s) = arr_get (stack s) (Idx (sp s - 1)).
Proof. reflexivity. Qed.

Lemma sp_op_RET s : sp (op_RET s) = sp s - 1.
Proof. reflexivity. Qed.

Lemma stack_set_pc s a : stack (set_pc s a) = stack s.
Proof. reflexivity. Qed.

Lemma sp_set_pc s a : sp (set_pc s a) = sp s.
Proof. reflexivity. Qed.

(** X16: a subroutine whose body executes neither [CALL] nor [RET]
    returns to its caller: after [CALL] fetched at [a], any number of such
    cycles and a [RET], [pc] is [a + 2] and [sp] is what it was before the
    call. *)
Theorem subroutine_returns_to_caller h1 hs h2 s a nnn :
  pc s = Num a ->
  0 <= nnn < 4096 ->
  fetch s = 0x2000 + nnn ->
  body_neutral hs (final (runCycle h1 s)) = true ->
  fetch (final (run hs (final (runCycle h1 s)))) = 0x00EE ->
  pc (final (runCycle h2 (final (run hs (final (runCycle h1 s)))))) = Num (a + 2)
  /\ sp (final (runCycle h2 (final (run hs (final (runCycle h1 s)))))) = sp s.
Proof.
  intros Hpc Hn Hf.
  assert (runCycle h1 s = Normal (op_CALL nnn (set_pc s (js_add (pc s) (Num 2))))) as ->.
  { unfold runCycle. rewrite Hf. unfold dispatch.
    destruct (addr_fields 2 nnn) as (Htop & Haddr); [lia | lia |].
    change (0x2000 + nnn) with (4096 * 2 + nnn).
    rewrite Htop, Haddr. reflexivity. }
  cbn [final]. intros Hbody Hret.
  set (s1 := op_CALL nnn (set_pc s (js_add (pc s) (Num 2)))) in *.
  destruct (body_neutral_keeps hs s1 Hbody) as [Hstack Hsp].
  set (s2 := final (run hs s1)) in *.
  assert (runCycle h2 s2 = Normal (op_RET (set_pc s2 (js_add (pc s2) (Num 2))))) as ->.
  { unfold runCycle. rewrite Hret. reflexivity. }
  cbn [final]. rewrite pc_op_RET, sp_op_RET, stack_set_pc, sp_set_pc, Hstack, Hsp.
  assert (sp s1 = sp s + 1) as -> by reflexivity.
  assert (stack s1 = arr_set (stack s) (Idx (sp s)) (js_add (pc s) (Num 2))) as ->
      by reflexivity.
  replace (sp s + 1 - 1) with (sp s) by lia.
  rewrite arr_get_set. destruct (decide (Idx (sp s) = Idx (sp s))); [| done].
  rewrite Hpc. split; [reflexivity | lia].
Qed.

Lemma subroutine_returns_to_caller_witness :
  let s := loaded [0x22; 0x04; 0x00; 0x00; 0x60; 0x01; 0x70; 0x01; 0x00; 0xEE] in
  pc (final (runCycle host0 (final (run [host0; host0] (final (runCycle host0 s))))))
  = Num 0x202.
Proof.
  intros s.
  destruct (subroutine_returns_to_caller host0 [host0; host0] host0 s 0x200 0x204) as [H _].
  - by vm_compute.
  - lia.
  - by vm_compute.
  - by vm_compute.
  - by vm_compute.
  - exact H.
Defined.

(** ** reset and load *)

(** The zeroing loop of [reset] over memory, from index [k0] on. *)
Lemma zero_memory_loop n :
  forall k0 m,
    0 <= k0 ->
    let m' := for_upto n k0 (fun k acc => mem_set acc (Num k) (Num 0)) m in
    length m' = length m
    /\ forall b, mem_get m' (Num b)
                 = if decide (k0 <= b < k0 + Z.of_nat n /\ b < Z.of_nat (length m))
                   then Num 0 else mem_get m (Num b).
Proof.
  induction n as [|n IH]; intros k0 m Hk0; cbn [for_upto].
  { split; [done |]. intros b. destruct (decide _); [lia | done]. }
  destruct (IH (k0 + 1) (mem_set m (Num k0) (Num 0)) ltac:(lia)) as [Hl Hget].
  rewrite length_mem_set in Hl, Hget.
  split; [done |]. intros b. rewrite Hget.
  destruct (decide (k0 + 1 <= b < k0 + 1 + Z.of_nat n /\ b < Z.of_nat (length m)));
    destruct (decide (k0 <= b < k0 + Z.of_nat (S n) /\ b < Z.of_nat (length m)));
    try lia; try done.
  - assert (b = k0) as -> by lia. by rewrite mem_get_set_eq by lia.
  - destruct (decide (b = k0)) as [-> | Hne].
    + rewrite mem_set_outside; [done |]. intros z Hz. injection Hz as <-. lia.
    + rewrite mem_get_set_ne by lia. done.
Qed.

(** The copying loop shared by [reset] (font table) and [load] (program),
    from element [k0] of [p] on. *)
Lemma copy_loop start (p : list Z) n :
  forall k0 m,
    0 <= k0 -> 0 <= start ->
    let m' := for_upto n k0
                (fun k acc => mem_set acc (js_add (Num start) (Num k))
                                (from_option Num Undefined (p !! Z.to_nat k))) m in
    length m' = length m
    /\ (forall k x, k0 <= k < k0 + Z.of_nat n -> p !! Z.to_nat k = Some x ->
                    start + k < Z.of_nat (length m) ->
                    mem_get m' (Num (start + k)) = Num (x mod 256))
    /\ (forall b, ~ (start + k0 <= b < start + k0 + Z.of_nat n) ->
                  mem_get m' (Num b) = mem_get m (Num b)).
Proof.
  induction n as [|n IH]; intros k0 m Hk0 Hstart; cbn [for_upto].
  { split; [done |]. split; [intros; lia | done]. }
  set (m1 := mem_set m (js_add (Num start) (Num k0))
               (from_option Num Undefined (p !! Z.to_nat k0))).
  assert (length m1 = length m) as Hl1 by apply length_mem_set.
  destruct (IH (k0 + 1) m1 ltac:(lia) Hstart) as (Hl & Hin & Hout).
  split; [by rewrite Hl |]. split.
  - intros k x Hk Hx Hlen. destruct (decide (k = k0)) as [-> | Hne].
    + rewrite Hout by lia. unfold m1. cbn [js_add ToNumber]. rewrite mem_get_set_eq by lia.
      rewrite Hx. cbn [from_option ToUint8]. by rewrite Z_of_byte_of_Z.
    + apply Hin; [lia | done | by rewrite Hl1].
  - intros b Hb. rewrite Hout by lia. unfold m1. cbn [js_add ToNumber].
    apply mem_get_set_ne. lia.
Qed.

Lemma arr_length_base base (a : jsarray) : base <= arr_length base a.
Proof.
  unfold arr_length.
  apply (map_fold_weak_ind (fun r _ => base <= r)); [lia |].
  intros k x m r _ Hr. destruct k; lia.
Qed.

(** The zeroing loop of [reset] over a plain array, from index [k0] on. *)
Lemma zero_array_loop n :
  forall k0 (a : jsarray) k,
    arr_get (for_upto n k0 (fun j acc => arr_set acc (Idx j) (Num 0)) a) (Idx k)
    = if decide (k0 <= k < k0 + Z.of_nat n) then Num 0 else arr_get a (Idx k).
Proof.
  induction n as [|n IH]; intros k0 a k; cbn [for_upto].
  { destruct (decide _); [lia | done]. }
  rewrite IH.
  destruct (decide (k0 + 1 <= k < k0 + 1 + Z.of_nat n));
    destruct (decide (k0 <= k < k0 + Z.of_nat (S n))); try lia; try done.
  - rewrite arr_get_set. destruct (decide (Idx k0 = Idx k)) as [E |]; [done |].
    exfalso. assert (k = k0) by lia. congruence.
  - rewrite arr_get_set. destruct (decide (Idx k0 = Idx k)) as [E |]; [| done].
    injection E as ->. lia.
Qed.

Lemma zero_array_spec base (a : jsarray) k :
  0 <= k < base -> arr_get (zero_array base a) (Idx k) = Num 0.
Proof.
  intros Hk. unfold zero_array. rewrite zero_array_loop.
  pose proof (arr_length_base base a).
  destruct (decide _); [done | lia].
Qed.

(** X17: whatever the state before, [reset] leaves the font table in
    [memory[0..80)], zero in the rest of memory, every register and both
    timers at 0, [I = 0], [pc = 0x200], [sp = 0], all 2048 pixels at 0 and
    [running] false.  It does not touch the return stack or the pending
    render request. *)
Theorem reset_postconditions s :
  length (memory s) = 4096%nat ->
  (forall k, 0 <= k < 80 -> load_byte (reset s) (Num k) = Num (font_byte k))
  /\ (forall k, 80 <= k < 4096 -> load_byte (reset s) (Num k) = Num 0)
  /\ (forall k, 0 <= k < 16 -> getV (reset s) k = Num 0)
  /\ (forall k, 0 <= k < 2048 -> arr_get (display (reset s)) (Idx k) = Num 0)
  /\ i (reset s) = Num 0 /\ dt (reset s) = Num 0 /\ st (reset s) = Num 0
  /\ pc (reset s) = Num 0x200 /\ sp (reset s) = 0 /\ running (reset s) = false
  /\ stack (reset s) = stack s /\ requestRender (reset s) = requestRender s.
Proof.
  intros Hlen.
  destruct (zero_memory_loop (length (memory s)) 0 (memory s) ltac:(lia)) as [Hl0 Hz].
  set (m0 := for_upto (length (memory s)) 0
               (fun k acc => mem_set acc (Num k) (Num 0)) (memory s)) in *.
  destruct (copy_loop 0 hexDigits (length hexDigits) 0 m0 ltac:(lia) ltac:(lia))
    as (Hl1 & Hin & Hout).
  fold (copy_bytes 0 hexDigits m0) in Hl1, Hin, Hout.
  assert (memory (reset s) = copy_bytes 0 hexDigits m0) as Hmem by reflexivity.
  split; [| split; [| split; [| split]]].
  - intros k Hk. unfold load_byte. rewrite Hmem.
    assert (exists x, hexDigits !! Z.to_nat k = Some x) as [x Hx].
    { apply lookup_lt_is_Some_2. change (length hexDigits) with 80%nat. lia. }
    change (Num k) with (Num (0 + k)). rewrite (Hin k x); [| simpl; lia | done | lia].
    unfold font_byte. rewrite Hx. cbn [default]. f_equal. apply Z.mod_small.
    assert (forallb (fun y => (0 <=? y) && (y <? 256)) hexDigits = true) as Hall
        by (by vm_compute).
    rewrite forallb_forall in Hall.
    assert (In x hexDigits) as Hinx.
    { apply list_elem_of_In. by apply (list_elem_of_lookup_2 _ (Z.to_nat k)). }
    specialize (Hall x Hinx). apply andb_prop in Hall as [H1 H2].
    apply Z.leb_le in H1. apply Z.ltb_lt in H2. unfold id. lia.
  - intros k Hk. unfold load_byte. rewrite Hmem.
    rewrite Hout by (simpl; lia). rewrite Hz.
    destruct (decide _); [done | lia].
  - intros k Hk. unfold getV. by apply zero_array_spec.
  - intros k Hk. by apply zero_array_spec.
  - repeat split.
Qed.

Lemma reset_postconditions_witness :
  getV (final (runCycle host0 (loaded [0x6A; 0x2A]))) 10 = Num 0x2A
  /\ getV (reset (final (runCycle host0 (loaded [0x6A; 0x2A])))) 10 = Num 0.
Proof.
  split; [by vm_compute |].
  destruct (reset_postconditions (final (runCycle host0 (loaded [0x6A; 0x2A]))))
    as (_ & _ & Hv & _); [by vm_compute |].
  apply Hv. lia.
Defined.

(** X18: [load] with a program image [p] stores byte [k] of the image,
    reduced modulo 256, at address [0x200 + k] whenever that address lies
    inside memory; memory keeps its length, so the part of an image that
    does not fit is dropped; every address outside the image's range and
    every other field of the machine are left as they were, and the
    loader's [err] is handed on unchanged. *)
Theorem load_copies_program {E : Type} (err : option E) (p : list Z) s :
  exists s', load err (Some p) s = Callback err s'
    /\ length (memory s') = length (memory s)
    /\ (forall k x, p !! k = Some x ->
          0x200 + Z.of_nat k < Z.of_nat (length (memory s)) ->
          load_byte s' (Num (0x200 + Z.of_nat k)) = Num (x mod 256))
    /\ (forall b, ~ (0x200 <= b < 0x200 + Z.of_nat (length p)) ->
          load_byte s' (Num b) = load_byte s (Num b))
    /\ (forall f, f <> FMemory -> keeps f s s').
Proof.
  destruct (copy_loop 0x200 p (length p) 0 (memory s) ltac:(lia) ltac:(lia))
    as (Hl & Hin & Hout).
  fold (copy_bytes 0x200 p (memory s)) in Hl, Hin, Hout.
  exists (set_memory s (copy_bytes 0x200 p (memory s))).
  split; [reflexivity |]. split; [exact Hl |]. split; [| split].
  - intros k x Hx Hk. unfold load_byte. cbn [memory set_memory].
    apply Hin; [| by rewrite Nat2Z.id | done].
    apply lookup_lt_Some in Hx. lia.
  - intros b Hb. unfold load_byte. cbn [memory set_memory].
    apply Hout. lia.
  - intros f Hf. destruct f; try done.
Qed.


(** X20: [stop] clears only the interval whose handle is in [this.loop],
    and does not clear [running].  So [stop] after one [start] removes
    that machine's timer but leaves [running] true, and after two
    [start]s the handle of the first interval has been overwritten: its
    timer stays installed. *)
Theorem stop_clears_latest_interval_only m :
  Forall (fun t => (t < next_timer m)%nat) (timers m) ->
  timers (stop (start m)) = timers m
  /\ running (core (stop (start m))) = true
  /\ timers (stop (start (start m))) = next_timer m :: timers m.
Proof.
  intros Hwf.
  assert (forall n, (next_timer m <= n)%nat ->
            filter (fun t' => t' <> n) (timers m) = timers m) as Hf.
  { intros n Hn. induction Hwf as [| t ts Ht _ IH]; [done |].
    rewrite filter_cons_True by lia. by rewrite IH. }
  split; [| split].
  - cbn [stop start loop timers]. rewrite filter_cons_False by (intros H; by apply H).
    by apply Hf.
  - by destruct m as [[] ? ? ?].
  - cbn [stop start loop timers next_timer].
    rewrite filter_cons_False by (intros H; by apply H).
    rewrite filter_cons_True by lia. f_equal. apply Hf. lia.
Qed.

Lemma stop_clears_latest_interval_only_witness :
  let m := {| core := loaded []; loop := None; timers := [0%nat; 2%nat]; next_timer := 3 |} in
  timers (stop (start m)) = [0%nat; 2%nat]
  /\ running (core (stop (start m))) = true
  /\ timers (stop (start (start m))) = [3%nat; 0%nat; 2%nat].
Proof.
  apply (stop_clears_latest_interval_only
           {| core := loaded []; loop := None; timers := [0%nat; 2%nat]; next_timer := 3 |}).
  repeat constructor.
Defined.

(** ** The size of memory *)

Lemma length_bcd_loop h count :
  forall w s, length (memory (bcd_loop h count w s)) = length (memory s).
Proof.
  induction count as [|c IH]; intros w s; [done |].
  cbn [bcd_loop]. rewrite IH. unfold store_byte. cbn [memory set_memory].
  apply length_mem_set.
Qed.

Lemma length_store_loop n k0 s :
  length (memory (for_upto n k0
                    (fun k s => store_byte s (js_add (i s) (Num k)) (getV s k)) s))
  = length (memory s).
Proof.
  apply (for_upto_invariant_idx (fun s' => length (memory s') = length (memory s)));
    [| done].
  intros j y _ Hy. unfold store_byte. cbn [memory set_memory].
  by rewrite length_mem_set.
Qed.

Lemma length_memory_runCycle h s :
  length (memory (final (runCycle h s))) = length (memory s).
Proof.
  destruct (Z.eq_dec (Z.land (fetch s) 0xF0FF) 0xF033) as [E33 | N33];
    [| destruct (Z.eq_dec (Z.land (fetch s) 0xF0FF) 0xF055) as [E55 | N55]].
  3: { f_equal. apply (runCycle_keeps h s FMemory). not_written s. }
  all: pose proof (fetch_range s) as Hr;
    destruct (mask_F0FF _ Hr) as [Hm Hb];
    destruct (decode_fields _ Hr) as (Htop & _);
    unfold runCycle; revert Hm Hb Htop; try revert E33; try revert E55;
    generalize (fetch s) as op; intros op E Hm Hb Htop;
    assert (Z.land op 0xF000 = 0xF000) as Ht by lia.
  - assert (Z.land op 0xFF = 0x33) as Hs by lia.
    unfold dispatch. cbv zeta. rewrite Ht. simpl (_ =? _). cbv iota.
    unfold exec_F. cbv zeta. rewrite Hs. simpl (_ =? _). cbv iota.
    cbn [final]. unfold op_LD_B. by rewrite length_bcd_loop.
  - assert (Z.land op 0xFF = 0x55) as Hs by lia.
    unfold dispatch. cbv zeta. rewrite Ht. simpl (_ =? _). cbv iota.
    unfold exec_F. cbv zeta. rewrite Hs. simpl (_ =? _). cbv iota.
    cbn [final]. unfold op_LD_I_Vx. by rewrite length_store_loop.
Qed.

(** X21: memory never changes size: however many cycles run and whatever
    they execute, and across [reset], memory has the length it was
    constructed with, so an address outside memory stays outside. *)
Theorem memory_size_is_invariant hs s :
  length (memory (final (run hs s))) = length (memory s)
  /\ length (memory (reset s)) = length (memory s).
Proof.
  split.
  - revert s. induction hs as [|h hs IH]; intros s; [done |].
    rewrite final_run_cons, IH. apply length_memory_runCycle.
  - destruct (zero_memory_loop (length (memory s)) 0 (memory s) ltac:(lia)) as [Hl0 _].
    destruct (copy_loop 0 hexDigits (length hexDigits) 0
                (for_upto (length (memory s)) 0
                   (fun k acc => mem_set acc (Num k) (Num 0)) (memory s))
                ltac:(lia) ltac:(lia)) as (Hl1 & _).
    cbv zeta in Hl0, Hl1. cbn [reset memory]. unfold copy_bytes.
    by rewrite Hl1.
Qed.

(** ** Leaving memory *)

Lemma runCycle_outside_memory h s a :
  pc s = Num a -> Z.of_nat (length (memory s)) <= a ->
  runCycle h s = Normal (set_pc s (Num (a + 2))).
Proof.
  intros Hpc Ha.
  assert (fetch s = 0) as Hf.
  { unfold fetch, load_byte. rewrite Hpc. cbn [js_add ToNumber]. unfold mem_get.
    destruct (Z.leb_spec 0 a); [| lia]. destruct (Z.leb_spec 0 (a + 1)); [| lia].
    rewrite !lookup_ge_None_2 by lia. reflexivity. }
  unfold runCycle. rewrite Hf, Hpc. reflexivity.
Qed.

(** X22: once [pc] is at or past the end of memory it never comes back:
    every later cycle only adds 2 to it, so after any number of cycles
    the machine is the state it left memory in, with [pc] that much
    further on. *)
Theorem pc_outside_memory_never_returns hs s a :
  pc s = Num a -> Z.of_nat (length (memory s)) <= a ->
  run hs s = Normal (set_pc s (Num (a + 2 * Z.of_nat (length hs)))).
Proof.
  revert s a. induction hs as [|h hs IH]; intros s a Hpc Ha.
  - cbn [run length]. change (Z.of_nat 0) with 0. rewrite Z.mul_0_r, Z.add_0_r.
    rewrite <- Hpc. by destruct s.
  - cbn [run]. rewrite (runCycle_outside_memory h s a Hpc Ha).
    rewrite (IH (set_pc s (Num (a + 2))) (a + 2)); [| done | cbn [memory set_pc]; lia].
    f_equal. unfold set_pc. cbn [memory stack v i dt st pc sp running display requestRender].
    f_equal. f_equal. cbn [length]. lia.
Qed.

Lemma pc_outside_memory_never_returns_witness :
  let s := final (run [host0; host0] (loaded [0x60; 0x01; 0xBF; 0xFF])) in
  pc s = Num 0x1000
  /\ pc (final (run [host0; host0; host0] s)) = Num 0x1006.
Proof.
  intros s. split; [by vm_compute |].
  rewrite (pc_outside_memory_never_returns [host0; host0; host0] s 0x1000);
    [reflexivity | by vm_compute | by vm_compute].
Defined.

(** ** The keyboard instructions *)

(** X23: the keyboard is not read: [SKP Vx] (Ex9E) and [SKNP Vx] (ExA1),
    like every opcode [Exkk], never skip, and [LD Vx, K] (Fx0A) neither
    waits for a key nor writes [V[x]]; each only moves [pc] on by 2. *)
Theorem keyboard_instructions_do_nothing h s :
  Z.land (fetch s) 0xF000 = 0xE000 \/ Z.land (fetch s) 0xF0FF = 0xF00A ->
  runCycle h s = Normal (set_pc s (js_add (pc s) (Num 2))).
Proof.
  intros H.
  pose proof (fetch_range s) as Hr.
  destruct (mask_F0FF _ Hr) as [Hm Hb].
  destruct (decode_fields _ Hr) as (Htop & _).
  unfold runCycle. revert H Hm Hb Htop. generalize (fetch s) as op.
  intros op H Hm Hb Htop. unfold dispatch. cbv zeta.
  destruct H as [HE | HF].
  - rewrite HE. simpl (_ =? _). cbv iota. unfold exec_E. cbv zeta.
    by repeat destruct (_ =? _).
  - assert (Z.land op 0xF000 = 0xF000) as Ht by lia.
    assert (Z.land op 0xFF = 0x0A) as Hs by lia.
    rewrite Ht. simpl (_ =? _). cbv iota.
    unfold exec_F. cbv zeta. rewrite Hs. reflexivity.
Qed.

Lemma keyboard_instructions_do_nothing_witness :
  let s := loaded [0xE0; 0x9E] in
  pc (final (runCycle host0 s)) = Num 0x202.
Proof.
  intros s.
  rewrite (keyboard_instructions_do_nothing host0 s); [by vm_compute |].
  left. by vm_compute.
Defined.

(** ** setPixel *)

(** X24: within one period of the screen on either side, and away from
    the two coordinates equal to a dimension, [setPixel] wraps like a
    remainder: it flips the low bit of cell [x mod 64 + 64 * (y mod 32)],
    which lies inside the 2048 cells of the display, leaves every other
    cell alone, and returns [true] exactly when that cell was lit. *)
Theorem setPixel_wraps_one_period x y d :
  -64 <= x < 128 -> x <> 64 -> -32 <= y < 64 -> y <> 32 ->
  let k := x mod 64 + 64 * (y mod 32) in
  0 <= k < 2048
  /\ fst (setPixel (Num x) (Num y) d) = lit d (Idx k)
  /\ (forall j, arr_get (snd (setPixel (Num x) (Num y) d)) j
                = if decide (Idx k = j)
                  then Num (Z.lxor (ToInt32 (arr_get d j)) 1)
                  else arr_get d j).
Proof.
  intros Hx Hx' Hy Hy' k.
  assert (pixel_location (Num x) (Num y) = Num k) as Hloc.
  { unfold pixel_location. rewrite !wrap_coord_int. cbn [js_mul js_add ToNumber].
    f_equal. unfold k, wrap_int, displayWidth, displayHeight.
    destruct (Z.ltb_spec 64 x); destruct (Z.ltb_spec x 0);
      destruct (Z.ltb_spec 32 y); destruct (Z.ltb_spec y 0);
      Z.div_mod_to_equations; lia. }
  split; [unfold k; Z.div_mod_to_equations; lia |].
  unfold setPixel. cbv zeta. rewrite Hloc. cbn [key_of fst snd]. split.
  - rewrite arr_get_set. destruct (decide (Idx k = Idx k)); [| done].
    cbn [js_not]. unfold lit. apply erased_iff_lit.
  - intros j. rewrite arr_get_set. destruct (decide (Idx k = j)) as [<- |]; [| done].
    by rewrite js_xor_1.
Qed.

Lemma setPixel_wraps_one_period_witness :
  fst (setPixel (Num 70) (Num (-1)) ∅) = false
  /\ arr_get (snd (setPixel (Num 70) (Num (-1)) ∅)) (Idx (6 + 64 * 31)) = Num 1.
Proof.
  destruct (setPixel_wraps_one_period 70 (-1) ∅) as (_ & Hf & Hd);
    [lia | lia | lia | lia |].
  split; [exact Hf | apply (Hd (Idx (6 + 64 * 31)))].
Defined.

(** ** Font sprites *)

(** X25: with the font table in place as [reset] leaves it, [LD F, Vx]
    (Fx29) for a digit [d < 16] in [V[x]] points [I] at that digit's
    sprite: [I = 5 * d], and the five bytes from [I] are rows
    [5 * d .. 5 * d + 4] of the table. *)
Theorem font_sprite_address h s x d :
  0 <= x < 16 ->
  fetch s = 0xF029 + 256 * x ->
  getV s x = Num d -> 0 <= d < 16 ->
  font_intact s = true ->
  i (final (runCycle h s)) = Num (5 * d)
  /\ forall r, 0 <= r < 5 ->
       load_byte (final (runCycle h s)) (Num (5 * d + r)) = Num (font_byte (5 * d + r)).
Proof.
  intros Hx Hf Ex Hd Hfont.
  assert (memory (final (runCycle h s)) = memory s) as Hmem.
  { apply (runCycle_keeps h s FMemory).
    assert (Z.land (fetch s) 0xF0FF = 0xF029) as E.
    { rewrite Hf. replace (0xF029 + 256 * x) with (4096 * 15 + 256 * x + 0x29) by lia.
      destruct (mask_F0FF (4096 * 15 + 256 * x + 41)) as [-> _]; [lia |].
      destruct (xkk_fields 15 x 0x29) as (-> & _ & ->); lia. }
    not_written s. }
  split.
  - unfold runCycle. rewrite Hf.
    replace (0xF029 + 256 * x) with (4096 * 15 + 256 * x + 0x29) by lia.
    unfold dispatch. destruct (xkk_fields 15 x 0x29) as (Ht & Hxx & Hs); [lia | lia | lia |].
    cbv zeta. rewrite Ht, Hxx. simpl (_ =? _). cbv iota.
    unfold exec_F. cbv zeta. rewrite Hs. simpl (_ =? _). cbv iota.
    cbn [final i set_i]. rewrite getV_set_pc, Ex. cbn [js_mul ToNumber]. f_equal. lia.
  - intros r Hr. unfold load_byte. rewrite Hmem.
    pose proof (all_from_spec _ 80 0 Hfont (5 * d + r) ltac:(lia)) as Hk.
    cbv beta in Hk. unfold load_byte in Hk.
    destruct (mem_get (memory s) (Num (5 * d + r))) as [| |z]; try done.
    apply Z.eqb_eq in Hk. by rewrite Hk.
Qed.

Lemma font_sprite_address_witness :
  let s := final (runCycle host0 (loaded [0x60; 0x0A; 0xF0; 0x29])) in
  i (final (runCycle host0 s)) = Num 50
  /\ load_byte (final (runCycle host0 s)) (Num 50) = Num 0xF0.
Proof.
  intros s.
  destruct (font_sprite_address host0 s 0 0x0A) as [Hi Hl];
    [lia | by vm_compute | by vm_compute | lia | by vm_compute |].
  split; [exact Hi | exact (Hl 0 ltac:(lia))].
Defined.

(** ** Registers, [I] and jumps *)

(** X26: the registers are written only by the families [6xkk], [7xkk],
    [8xyn], [Cxkk], [Dxyn] and by [LD Vx, DT] (Fx07) and [LD Vx, [I]]
    (Fx65); [I] only by [LD I, nnn] (Annn), [ADD I, Vx] (Fx1E) and
    [LD F, Vx] (Fx29).  Every other cycle leaves them as they were. *)
Theorem registers_and_index_written_only_by h s :
  (Z.land (fetch s) 0xF000 <> 0x6000 -> Z.land (fetch s) 0xF000 <> 0x7000 ->
   Z.land (fetch s) 0xF000 <> 0x8000 -> Z.land (fetch s) 0xF000 <> 0xC000 ->
   Z.land (fetch s) 0xF000 <> 0xD000 ->
   Z.land (fetch s) 0xF0FF <> 0xF007 -> Z.land (fetch s) 0xF0FF <> 0xF065 ->
   v (final (runCycle h s)) = v s)
  /\ (Z.land (fetch s) 0xF000 <> 0xA000 ->
      Z.land (fetch s) 0xF0FF <> 0xF01E -> Z.land (fetch s) 0xF0FF <> 0xF029 ->
      i (final (runCycle h s)) = i s).
Proof.
  split.
  - intros H6 H7 H8 HC HD H07 H65. apply (runCycle_keeps h s FV). not_written s.
  - intros HA H1E H29. apply (runCycle_keeps h s FI). not_written s.
Qed.

(** X27: [JP nnn] (1nnn) sets [pc] to [nnn]; [JP V0, nnn] (Bnnn) sets it
    to [nnn + V[0]] without reducing the sum to 12 bits, so the target can
    lie past the end of memory.  Neither changes anything else. *)
Theorem jump_targets h s nnn :
  0 <= nnn < 4096 ->
  (fetch s = 0x1000 + nnn -> runCycle h s = Normal (set_pc s (Num nnn)))
  /\ (forall z, fetch s = 0xB000 + nnn -> getV s 0 = Num z ->
                runCycle h s = Normal (set_pc s (Num (nnn + z)))).
Proof.
  intros Hn. split.
  - intros Hf. unfold runCycle. rewrite Hf. unfold dispatch. cbv zeta.
    change (0x1000 + nnn) with (4096 * 1 + nnn).
    destruct (addr_fields 1 nnn) as (-> & ->); [lia | lia |].
    reflexivity.
  - intros z Hf Hz. unfold runCycle. rewrite Hf. unfold dispatch. cbv zeta.
    change (0xB000 + nnn) with (4096 * 11 + nnn).
    destruct (addr_fields 11 nnn) as (-> & ->); [lia | lia |].
    simpl (_ =? _). cbv iota. rewrite getV_set_pc, Hz. reflexivity.
Qed.

Lemma jump_targets_witness :
  let s := final (runCycle host0 (loaded [0x60; 0x01; 0xBF; 0xFF])) in
  pc (final (runCycle host0 s)) = Num 0x1000.
Proof.
  intros s.
  destruct (jump_targets host0 s 0xFFF) as [_ H]; [lia |].
  rewrite (H 1); [reflexivity | by vm_compute | by vm_compute].
Defined.

Lemma registers_and_index_written_only_by_witness :
  let s := loaded [0x12; 0x00] in
  v (final (runCycle host0 s)) = v s /\ i (final (runCycle host0 s)) = i s.
Proof.
  intros s.
  destruct (registers_and_index_written_only_by host0 s) as [Hv Hi].
  split; [apply Hv | apply Hi]; by vm_compute.
Defined.
